(** * RF4S UI observation core: a shallow embedding and its properties

    The development follows the Python sources of [rf4s_ui]:

    - [components/game_monitor/connection_monitor.py]  ([ConnectionMonitor])
    - [components/game_monitor/process_tracker.py]     ([ProcessTracker])
    - [components/game_monitor/game_monitor.py]        ([GameMonitor])
    - [core/event_manager.py]                          ([EventManager])
    - [core/service_registry.py]                       ([ServiceRegistry])
    - [core/bridge/configuration_bridge.py]            ([ConfigurationBridge])

    Objects become records, methods become functions that take the object
    and return the updated object together with what the method emitted
    (Qt signals, callback invocations) and its return value.  Whatever the
    operating system answers (socket results, process listings, the clock,
    whether a file can be written) is an explicit argument. *)

From Stdlib Require Import QArith Lqa Ascii String.
From stdpp Require Import gmap strings list fin_maps pretty sorting.

Local Open Scope string_scope.
Local Open Scope list_scope.

Set Warnings "-register-all".

(** ** Python helpers *)

Module Py.

(** [l[start:]] for an integer [start]: a negative start counts from the
    end and is clamped at the beginning of the list, a non-negative one
    is clamped at its end. *)
Definition slice_from {A} (start : Z) (l : list A) : list A :=
  if (start <? 0)%Z
  then drop (Z.to_nat (Z.max 0 (Z.of_nat (length l) + start))) l
  else drop (Z.to_nat start) l.

(** [l[-limit:]], the idiom of the history getters. *)
Definition last_items {A} (limit : Z) (l : list A) : list A :=
  slice_from (- limit) l.

(** Keeping the last [n] items of a list. *)
Definition keep {A} (n : nat) (l : list A) : list A := drop (length l - n) l.

(** Truth value of a list: empty lists are falsy. *)
Definition truthy {A} (l : list A) : bool :=
  match l with [] => false | _ => true end.

(** Plain Python data: what configuration files and event payloads
    hold.  A [dict] keeps its insertion order. *)
Inductive value :=
  | py_none
  | py_bool (b : bool)
  | py_int (z : Z)
  | py_str (s : string)
  | py_list (items : list value)
  | py_dict (items : list (string * value)).

Definition mapping : Type := list (string * value).

(** Truth value of an object, as [or] and [if] test it. *)
Definition is_true (v : value) : bool :=
  match v with
  | py_none => false
  | py_bool b => b
  | py_int z => negb (z =? 0)%Z
  | py_str s => negb (String.eqb s EmptyString)
  | py_list items => truthy items
  | py_dict items => truthy items
  end.

(** Only containers have a [copy] method. *)
Definition has_copy (v : value) : bool :=
  match v with
  | py_list _ | py_dict _ => true
  | _ => false
  end.

(** [str.lower] on ASCII letters. *)
Definition lower_char (c : ascii) : ascii :=
  let n := nat_of_ascii c in
  if ((65 <=? n) && (n <=? 90))%nat then ascii_of_nat (n + 32) else c.

Fixpoint lower (s : string) : string :=
  match s with
  | EmptyString => EmptyString
  | String c rest => String (lower_char c) (lower rest)
  end.

(** [needle in haystack] on strings. *)
Fixpoint contains (needle haystack : string) : bool :=
  String.prefix needle haystack ||
  match haystack with
  | EmptyString => false
  | String _ rest => contains needle rest
  end.

(** [x < y] on finite floats, read as the rationals they denote. *)
Definition Qltb (x y : Q) : bool := negb (Qle_bool y x).

(** [list.remove(x)]: the first occurrence goes. *)
Fixpoint list_remove {A} `{EqDecision A} (x : A) (l : list A) : list A :=
  match l with
  | [] => []
  | y :: rest => if decide (y = x) then rest else y :: list_remove x rest
  end.

(** [if x not in l: l.append(x)]. *)
Definition append_new {A} `{EqDecision A} (x : A) (l : list A) : list A :=
  if bool_decide (x ∈ l) then l else l ++ [x].

(** [if x in l: l.remove(x)]. *)
Definition remove_present {A} `{EqDecision A} (x : A) (l : list A) : list A :=
  if bool_decide (x ∈ l) then list_remove x l else l.

(** [name.rfind('.')], scanning from index [i]. *)
Fixpoint rfind_dot_from (i : nat) (s : string) (last : option nat) : option nat :=
  match s with
  | EmptyString => last
  | String c rest =>
      rfind_dot_from (S i) rest (if Ascii.eqb c "."%char then Some i else last)
  end.

Definition rfind_dot (s : string) : option nat := rfind_dot_from 0 s None.

(** A string that [pathlib] keeps as one path component when it is
    joined to a directory: it holds no separator of either flavour and no
    drive colon.  [directory / s] is then an entry of [directory], or
    the directory itself or its parent for the names [dot_name]
    recognises. *)
Definition backslash : ascii := ascii_of_nat 92.

Definition is_separator (c : ascii) : bool :=
  Ascii.eqb c "/"%char || Ascii.eqb c backslash || Ascii.eqb c ":"%char.

Definition plain_name (s : string) : bool :=
  forallb (fun c => negb (is_separator c)) (list_ascii_of_string s).

(** The empty name and [.] (both dropped by a join) and [..]: joined to
    a directory they name a directory, not one of its files. *)
Definition dot_name (s : string) : bool :=
  String.eqb s EmptyString || String.eqb s "." || String.eqb s "..".

(** [PurePath.suffix] and [PurePath.stem] of a file name (the last
    component of a path): the last dot splits the name unless it is its
    first or its last character. *)
Definition path_suffix (file : string) : string :=
  match rfind_dot file with
  | Some i =>
      if (0 <? i)%nat && (i <? String.length file - 1)%nat
      then String.substring i (String.length file - i) file
      else EmptyString
  | None => EmptyString
  end.

Definition path_stem (file : string) : string :=
  match rfind_dot file with
  | Some i =>
      if (0 <? i)%nat && (i <? String.length file - 1)%nat
      then String.substring 0 i file
      else file
  | None => file
  end.

(** The order of [sorted] on strings. *)
Definition string_le (a b : string) : Prop := String.leb a b = true.

Global Instance string_le_dec : RelDecision string_le.
Proof. intros a b. unfold string_le. apply _. Defined.


End Py.

(** ** [ConnectionMonitor] *)

Module ConnectionMonitor.

(** What one [sock.connect_ex] attempt of [_test_internet_connectivity]
    produced: a return code with the measured time in ms, or an
    exception with its message. *)
Inductive socket_attempt :=
  | connect_ex (code : Z) (response_time : Q)
  | socket_error (msg : string).

(** What the probe of one game server produced: an HTTP response, or a
    [RequestException] followed by the socket fallback. *)
Inductive fallback_attempt :=
  | fallback_code (code : Z)
  | fallback_error.

Inductive server_attempt :=
  | http_response (status_code : Z) (response_time : Q)
  | request_exception (msg : string) (fallback : fallback_attempt)
  | other_exception (msg : string).

(** The dictionary returned by [_test_internet_connectivity]. *)
Record internet_status := {
  connected : bool;
  response_times : list Q;
  failed_targets : list string;
  avg_response_time : option Q;
}.

(** The dictionary returned by [_test_game_servers]. *)
Record game_status := {
  reachable_servers : list string;
  unreachable_servers : list string;
  server_response_times : list (string * Q);
}.

(** [connection_results] of [_check_connection]. *)
Record results := {
  internet : internet_status;
  game_servers : game_status;
}.

Inductive quality :=
  | no_connection | excellent | good | fair | poor | very_poor | unknown.

Global Instance quality_eq_dec : EqDecision quality.
Proof. solve_decision. Defined.

Record history_entry := {
  h_timestamp : Q;
  h_connected : bool;
  h_quality : quality;
  h_response_time : Q;
}.

Record status_info := {
  s_connected : bool;
  s_quality : quality;
  s_last_check : Q;
  s_details : results;
}.

(** Qt signals and callback invocations, in emission order. *)
Inductive signal :=
  | connection_established (connection_type : string)
  | connection_lost (reason : string)
  | connection_status_changed (status : string) (info : status_info)
  | status_callback (callback : nat) (now_connected : bool) (info : status_info).

Record monitor := {
  is_monitoring : bool;
  check_interval : Z;
  is_connected : bool;
  last_check_time : Q;
  connection_history : list history_entry;
  status_callbacks : list nat;
}.

Definition init : monitor := {|
  is_monitoring := false;
  check_interval := 5000;
  is_connected := false;
  last_check_time := 0;
  connection_history := [];
  status_callbacks := [];
|}.

Definition test_targets : list (string * Z) :=
  [("google.com", 80%Z); ("8.8.8.8", 53%Z); ("1.1.1.1", 53%Z)].

Definition game_server_names : list string :=
  ["rf4game.com"; "russianfishing4.com"].

(** [sum(response_times)]; the rounding of float addition is left out. *)
Definition Qsum (l : list Q) : Q := foldl Qplus 0%Q l.

(** The loop of [_test_internet_connectivity]: one attempt per target,
    in the order of the target list. *)
Fixpoint internet_loop (probes : list ((string * Z) * socket_attempt))
    (successful : nat) (times : list Q) (failed : list string)
    : nat * list Q * list string :=
  match probes with
  | [] => (successful, times, failed)
  | ((host, port), connect_ex code t) :: rest =>
      if (code =? 0)%Z
      then internet_loop rest (S successful) (times ++ [t]) failed
      else internet_loop rest successful times
             (failed ++ [host +:+ ":" +:+ pretty port])
  | ((host, port), socket_error msg) :: rest =>
      internet_loop rest successful times
        (failed ++ [host +:+ ":" +:+ pretty port +:+ " - " +:+ msg])
  end.

Definition test_internet_connectivity
    (probes : list ((string * Z) * socket_attempt)) : internet_status :=
  let '(successful, times, failed) := internet_loop probes 0 [] [] in
  {| connected := (0 <? successful)%nat;
     response_times := times;
     failed_targets := failed;
     avg_response_time :=
       if Py.truthy times
       then Some (Qsum times / inject_Z (Z.of_nat (length times)))%Q
       else None |}.

(** The loop of [_test_game_servers]; [None] when a probe raises
    something other than a [RequestException]. *)
Fixpoint game_loop (probes : list (string * server_attempt)) (acc : game_status)
    : option game_status :=
  match probes with
  | [] => Some acc
  | (server, http_response status t) :: rest =>
      if (status <? 500)%Z
      then game_loop rest
             {| reachable_servers := reachable_servers acc ++ [server];
                unreachable_servers := unreachable_servers acc;
                server_response_times := server_response_times acc ++ [(server, t)] |}
      else game_loop rest
             {| reachable_servers := reachable_servers acc;
                unreachable_servers :=
                  unreachable_servers acc ++ [server +:+ " - HTTP " +:+ pretty status];
                server_response_times := server_response_times acc |}
  | (server, request_exception msg (fallback_code code)) :: rest =>
      if (code =? 0)%Z
      then game_loop rest
             {| reachable_servers := reachable_servers acc ++ [server];
                unreachable_servers := unreachable_servers acc;
                server_response_times := server_response_times acc |}
      else game_loop rest
             {| reachable_servers := reachable_servers acc;
                unreachable_servers :=
                  unreachable_servers acc ++ [server +:+ " - " +:+ msg];
                server_response_times := server_response_times acc |}
  | (server, request_exception msg fallback_error) :: rest =>
      game_loop rest
        {| reachable_servers := reachable_servers acc;
           unreachable_servers := unreachable_servers acc ++ [server +:+ " - " +:+ msg];
           server_response_times := server_response_times acc |}
  | (server, other_exception msg) :: rest => None
  end.

Definition test_game_servers (probes : list (string * server_attempt)) : game_status :=
  let nothing :=
    {| reachable_servers := []; unreachable_servers := [];
       server_response_times := [] |} in
  default nothing (game_loop probes nothing).

(** The latency bands of [_assess_connection_quality]. *)
Definition band (avg_response : Q) : quality :=
  if Py.Qltb avg_response 50 then excellent
  else if Py.Qltb avg_response 100 then good
  else if Py.Qltb avg_response 200 then fair
  else if Py.Qltb avg_response 500 then poor
  else very_poor.

Definition assess_connection_quality (r : results) : quality :=
  if negb (connected (internet r)) then no_connection
  else band (default 1000%Q (avg_response_time (internet r))).

(** [_handle_connection_change]: the new monitor and the signals emitted. *)
Definition handle_connection_change (m : monitor) (now_connected : bool) (r : results)
    : monitor * list signal :=
  let set_connected b :=
    {| is_monitoring := is_monitoring m;
       check_interval := check_interval m;
       is_connected := b;
       last_check_time := last_check_time m;
       connection_history := connection_history m;
       status_callbacks := status_callbacks m |} in
  if now_connected && negb (is_connected m) then
    let connection_type :=
      if Py.truthy (reachable_servers (game_servers r))
      then "game_servers" else "internet" in
    (set_connected true, [connection_established connection_type])
  else if negb now_connected && is_connected m then
    let reason :=
      if negb (connected (internet r)) then "internet_disconnected"
      else if negb (Py.truthy (reachable_servers (game_servers r)))
      then "game_servers_unreachable"
      else "unknown" in
    (set_connected false, [connection_lost reason])
  else (m, []).

Definition max_history : nat := 100.

(** [_update_connection_history]. *)
Definition update_connection_history (m : monitor) (timestamp : Q) (r : results)
    : monitor :=
  let history_entry :=
    {| h_timestamp := timestamp;
       h_connected := connected (internet r);
       h_quality := assess_connection_quality r;
       h_response_time := default 0%Q (avg_response_time (internet r)) |} in
  let appended := connection_history m ++ [history_entry] in
  {| is_monitoring := is_monitoring m;
     check_interval := check_interval m;
     is_connected := is_connected m;
     last_check_time := last_check_time m;
     connection_history :=
       if (max_history <? length appended)%nat
       then Py.last_items 100 appended
       else appended;
     status_callbacks := status_callbacks m |}.

(** [connection_results] as [_check_connection] assembles it. *)
Definition probe (sockets : list ((string * Z) * socket_attempt))
    (servers : list (string * server_attempt)) : results :=
  {| internet := test_internet_connectivity sockets;
     game_servers := test_game_servers servers |}.

(** [_check_connection]: one tick of the monitor. *)
Definition check_connection (m : monitor) (current_time : Q)
    (sockets : list ((string * Z) * socket_attempt))
    (servers : list (string * server_attempt)) : monitor * list signal :=
  let connection_results := probe sockets servers in
  let overall_connected := connected (internet connection_results) in
  let connection_quality := assess_connection_quality connection_results in
  let '(m1, changed) :=
    if negb (eqb overall_connected (is_connected m))
    then handle_connection_change m overall_connected connection_results
    else (m, []) in
  let m2 := update_connection_history m1 current_time connection_results in
  let info :=
    {| s_connected := overall_connected;
       s_quality := connection_quality;
       s_last_check := current_time;
       s_details := connection_results |} in
  let emitted :=
    connection_status_changed
      (if overall_connected then "connected" else "disconnected") info
    :: map (fun cb => status_callback cb overall_connected info)
           (status_callbacks m2) in
  ({| is_monitoring := is_monitoring m2;
      check_interval := check_interval m2;
      is_connected := is_connected m2;
      last_check_time := current_time;
      connection_history := connection_history m2;
      status_callbacks := status_callbacks m2 |},
   changed ++ emitted).

(** [get_connection_history]. *)
Definition get_connection_history (m : monitor) (limit : Z) : list history_entry :=
  if Py.truthy (connection_history m)
  then Py.last_items limit (connection_history m)
  else [].

(** The dictionary returned by [get_connection_status]. *)
Record connection_status := {
  cs_is_connected : bool;
  cs_last_check : Q;
  cs_is_monitoring : bool;
  cs_check_interval : Z;
  cs_history_entries : nat;
}.

Definition get_connection_status (m : monitor) : connection_status :=
  {| cs_is_connected := is_connected m;
     cs_last_check := last_check_time m;
     cs_is_monitoring := is_monitoring m;
     cs_check_interval := check_interval m;
     cs_history_entries := length (connection_history m) |}.

(** A run of the monitor: the ticks in order, each with the clock
    reading and what the network answered. *)
Definition tick_input : Type :=
  Q * list ((string * Z) * socket_attempt) * list (string * server_attempt).

Definition tick (m : monitor) (i : tick_input) : monitor :=
  let '(t, sockets, servers) := i in (check_connection m t sockets servers).1.

Definition run (m : monitor) (inputs : list tick_input) : monitor :=
  foldl tick m inputs.

(** The sample a tick records. *)
Definition sample_of (i : tick_input) : history_entry :=
  let '(t, sockets, servers) := i in
  let r := probe sockets servers in
  {| h_timestamp := t;
     h_connected := connected (internet r);
     h_quality := assess_connection_quality r;
     h_response_time := default 0%Q (avg_response_time (internet r)) |}.

(** The response times of the basic-connectivity attempts that
    succeeded, in target order. *)
Definition successes (sockets : list ((string * Z) * socket_attempt)) : list Q :=
  flat_map
    (fun pa => match pa.2 with
               | connect_ex code t => if (code =? 0)%Z then [t] else []
               | socket_error _ => []
               end)
    sockets.

(** The latency bands as the specification words them. *)
Definition in_band (a : Q) (q : quality) : Prop :=
  ((a < 50)%Q -> q = excellent) /\
  ((50 <= a)%Q -> (a < 100)%Q -> q = good) /\
  ((100 <= a)%Q -> (a < 200)%Q -> q = fair) /\
  ((200 <= a)%Q -> (a < 500)%Q -> q = poor) /\
  ((500 <= a)%Q -> q = very_poor).

(** Tiers from worst to best. *)
Definition rank (q : quality) : nat :=
  match q with
  | excellent => 5
  | good => 4
  | fair => 3
  | poor => 2
  | very_poor => 1
  | no_connection => 0
  | unknown => 0
  end.

(** Results of a check whose basic connectivity succeeded with the
    given average. *)
Definition reachable_with (avg : Q) : results :=
  {| internet := {| connected := true; response_times := [avg];
                    failed_targets := []; avg_response_time := Some avg |};
     game_servers := {| reachable_servers := []; unreachable_servers := [];
                        server_response_times := [] |} |}.

(** [add_status_callback] and [remove_status_callback]. *)
Definition with_callbacks (m : monitor) (callbacks : list nat) : monitor :=
  {| is_monitoring := is_monitoring m;
     check_interval := check_interval m;
     is_connected := is_connected m;
     last_check_time := last_check_time m;
     connection_history := connection_history m;
     status_callbacks := callbacks |}.

Definition add_status_callback (m : monitor) (callback : nat) : monitor :=
  with_callbacks m (Py.append_new callback (status_callbacks m)).

Definition remove_status_callback (m : monitor) (callback : nat) : monitor :=
  with_callbacks m (Py.remove_present callback (status_callbacks m)).

(** [set_check_interval]: never below one second. *)
Definition set_check_interval (m : monitor) (interval_ms : Z) : monitor :=
  {| is_monitoring := is_monitoring m;
     check_interval := Z.max 1000 interval_ms;
     is_connected := is_connected m;
     last_check_time := last_check_time m;
     connection_history := connection_history m;
     status_callbacks := status_callbacks m |}.

Definition set_monitoring (m : monitor) (active : bool) : monitor :=
  {| is_monitoring := active;
     check_interval := check_interval m;
     is_connected := is_connected m;
     last_check_time := last_check_time m;
     connection_history := connection_history m;
     status_callbacks := status_callbacks m |}.

(** [start_monitoring]: the first call starts the timer and checks at
    once; a monitor that runs already is left alone. *)
Definition start_monitoring (m : monitor) (current_time : Q)
    (sockets : list ((string * Z) * socket_attempt))
    (servers : list (string * server_attempt)) : monitor * list signal :=
  if is_monitoring m then (m, [])
  else check_connection (set_monitoring m true) current_time sockets servers.

(** [stop_monitoring]. *)
Definition stop_monitoring (m : monitor) : monitor :=
  if is_monitoring m then set_monitoring m false else m.

(** The signals of a run, tick after tick. *)
Fixpoint run_signals (m : monitor) (inputs : list tick_input) : list (list signal) :=
  match inputs with
  | [] => []
  | i :: rest =>
      let '(t, sockets, servers) := i in
      (check_connection m t sockets servers).2 :: run_signals (tick m i) rest
  end.

Definition is_transition (s : signal) : bool :=
  match s with
  | connection_established _ | connection_lost _ => true
  | _ => false
  end.


End ConnectionMonitor.

(** ** [ProcessTracker] *)

Module ProcessTracker.

(** The psutil exceptions the tracker tells apart; everything else is
    caught by the [except Exception] handlers. *)
Inductive raised := NoSuchProcess | AccessDenied | OtherError.

Inductive answer (A : Type) :=
  | returns (a : A)
  | raises (e : raised).
Arguments returns {A} a.
Arguments raises {A} e.

Inductive info_value :=
  | info_int (z : Z)
  | info_float (q : Q)
  | info_str (s : string).

(** A [psutil.Process] object: its pid and what its methods answer when
    the tracker calls them. *)
Record process := {
  pid : Z;
  name : answer string;
  create_time : answer Q;
  status : answer string;
  extra : answer (gmap string info_value);
  is_running : bool;
}.

(** [proc.info] as filled by [process_iter]: [None] for an attribute
    psutil could not read. *)
Record proc_info := {
  info_pid : Z;
  info_name : option string;
}.

Inductive signal :=
  | process_found (p : Z) (process_name : string)
  | process_lost (p : Z)
  | status_changed (status_str : string) (info : gmap string info_value)
  | status_callback (callback : nat) (status_str : string)
      (info : gmap string info_value).

Record tracker := {
  target_processes : list string;
  current_pid : option Z;
  current_process : option process;
  process_info : gmap string info_value;
  scan_interval : Z;
  is_monitoring : bool;
  status_callbacks : list nat;
}.

Definition init : tracker := {|
  target_processes :=
    ["RussianFishing4.exe"; "rf4.exe"; "fishing4.exe"; "russian_fishing_4.exe"];
  current_pid := None;
  current_process := None;
  process_info := ∅;
  scan_interval := 2000;
  is_monitoring := false;
  status_callbacks := [];
|}.

Definition with_current (t : tracker) (p : option Z) (proc : option process)
    (info : gmap string info_value) : tracker :=
  {| target_processes := target_processes t;
     current_pid := p;
     current_process := proc;
     process_info := info;
     scan_interval := scan_interval t;
     is_monitoring := is_monitoring t;
     status_callbacks := status_callbacks t |}.

Definition is_target (targets : list string) (proc_name : string) : bool :=
  existsb (fun target => Py.contains (Py.lower target) proc_name) targets.

(** [_handle_no_processes]. *)
Definition handle_no_processes (t : tracker) : tracker * list signal :=
  match current_pid t with
  | Some lost_pid =>
      (with_current t None None ∅,
       [process_lost lost_pid; status_changed "not_running" ∅])
  | None => (t, [])
  end.

(** [_get_detailed_process_info]: the four basic fields, the extras when
    psutil grants them, and only the pid when a basic field fails. *)
Definition get_detailed_process_info (proc : process) : gmap string info_value :=
  match name proc, create_time proc, status proc with
  | returns n, returns c, returns s =>
      let info : gmap string info_value :=
        <["status" := info_str s]>
          (<["create_time" := info_float c]>
            (<["name" := info_str n]>
              (<["pid" := info_int (pid proc)]> ∅))) in
      match extra proc with
      | returns more => more ∪ info
      | raises OtherError => {["pid" := info_int (pid proc)]}
      | raises _ => info
      end
  | _, _, _ => {["pid" := info_int (pid proc)]}
  end.

Definition status_string (s : string) : string :=
  if String.eqb s "running" then "running"
  else if String.eqb s "sleeping" then "idle"
  else if String.eqb s "stopped" then "stopped"
  else "unknown".

(** [_update_process_status]. *)
Definition update_process_status (t : tracker) : tracker * list signal :=
  match current_process t with
  | Some proc =>
      if is_running proc then
        let updated_info := get_detailed_process_info proc in
        let t1 := with_current t (current_pid t) (current_process t)
                    (updated_info ∪ process_info t) in
        match status proc with
        | returns s =>
            let status_str := status_string s in
            (t1,
             status_changed status_str (process_info t1)
             :: map (fun cb => status_callback cb status_str (process_info t1))
                    (status_callbacks t1))
        | raises OtherError => (t1, [])
        | raises _ =>
            handle_no_processes t1
        end
      else (t, [])
  | None => (t, [])
  end.

(** [_handle_found_processes]; [processes] is the non-empty list of
    matches built by [_scan_processes]. *)
Definition handle_found_processes (t : tracker)
    (processes : list (process * (Z * string))) : tracker * list signal :=
  match processes with
  | [] => (t, [])
  | (proc, (new_pid, proc_name)) :: _ =>
      let '(t1, changed) :=
        if bool_decide (current_pid t = Some new_pid) then (t, [])
        else
          (with_current t (Some new_pid) (Some proc) (get_detailed_process_info proc),
           match current_pid t with
           | Some old_pid => [process_lost old_pid]
           | None => []
           end ++ [process_found new_pid proc_name]) in
      let '(t2, updated) := update_process_status t1 in
      (t2, changed ++ updated)
  end.

(** The matching loop of [_scan_processes].  [None] stands for the
    [AttributeError] of [None.lower()], which aborts the scan. *)
Fixpoint match_processes (targets : list string)
    (listing : list (process * proc_info))
    : option (list (process * (Z * string))) :=
  match listing with
  | [] => Some []
  | (proc, info) :: rest =>
      match info_name info with
      | None => None
      | Some n =>
          found ← match_processes targets rest;
          Some (if is_target targets (Py.lower n)
                then (proc, (info_pid info, n)) :: found
                else found)
      end
  end.

(** [_scan_processes]: one tick of the tracker. *)
Definition scan_processes (t : tracker) (listing : list (process * proc_info))
    : tracker * list signal :=
  match match_processes (target_processes t) listing with
  | None => (t, [])
  | Some [] => handle_no_processes t
  | Some found_processes => handle_found_processes t found_processes
  end.

(** The dictionary returned by [get_current_status]. *)
Record current_status := {
  cs_is_running : bool;
  cs_pid : option Z;
  cs_process_info : gmap string info_value;
  cs_uptime : Q;
}.

(** [get_current_status] at clock reading [now]; pid 0 is falsy in
    Python, a [create_time] that is missing defaults to the clock, and
    one that is not a number makes the subtraction raise. *)
Definition get_current_status (t : tracker) (now : Q) : current_status :=
  let not_running :=
    {| cs_is_running := false; cs_pid := None;
       cs_process_info := ∅; cs_uptime := 0 |} in
  match current_pid t, current_process t with
  | Some p, Some _ =>
      if (p =? 0)%Z then not_running
      else
        let running uptime :=
          {| cs_is_running := true; cs_pid := Some p;
             cs_process_info := process_info t; cs_uptime := uptime |} in
        match process_info t !! "create_time" with
        | Some (info_float c) => running (now - c)%Q
        | Some (info_int c) => running (now - inject_Z c)%Q
        | Some (info_str _) => not_running
        | None => running 0%Q
        end
  | _, _ => not_running
  end.

Definition is_lifecycle (s : signal) : bool :=
  match s with
  | process_found _ _ | process_lost _ => true
  | _ => false
  end.

(** What the status refresh adds to the lifecycle signals of a tick:
    the tracked process is reported lost when asking for its status
    raises [NoSuchProcess] or [AccessDenied]. *)
Definition lost_while_refreshing (proc : process) (p : Z) : list signal :=
  if is_running proc then
    match status proc with
    | raises NoSuchProcess | raises AccessDenied => [process_lost p]
    | _ => []
    end
  else [].

(** [add_status_callback] and [remove_status_callback]. *)
Definition with_callbacks (t : tracker) (callbacks : list nat) : tracker :=
  {| target_processes := target_processes t;
     current_pid := current_pid t;
     current_process := current_process t;
     process_info := process_info t;
     scan_interval := scan_interval t;
     is_monitoring := is_monitoring t;
     status_callbacks := callbacks |}.

Definition add_status_callback (t : tracker) (callback : nat) : tracker :=
  with_callbacks t (Py.append_new callback (status_callbacks t)).

Definition remove_status_callback (t : tracker) (callback : nat) : tracker :=
  with_callbacks t (Py.remove_present callback (status_callbacks t)).

(** [set_scan_interval]: never below 500 ms. *)
Definition set_scan_interval (t : tracker) (interval_ms : Z) : tracker :=
  {| target_processes := target_processes t;
     current_pid := current_pid t;
     current_process := current_process t;
     process_info := process_info t;
     scan_interval := Z.max 500 interval_ms;
     is_monitoring := is_monitoring t;
     status_callbacks := status_callbacks t |}.

(** [is_game_running]. *)
Definition is_game_running (t : tracker) : bool :=
  match current_pid t, current_process t with
  | Some _, Some _ => true
  | _, _ => false
  end.

(** [force_refresh]. *)
Definition force_refresh (t : tracker) (listing : list (process * proc_info))
    : tracker * list signal :=
  scan_processes t listing.

(** The lower-cased name of a listed process contains a lower-cased
    target. *)
Definition matches (targets : list string) (entry : process * proc_info) : bool :=
  match info_name entry.2 with
  | Some n => is_target targets (Py.lower n)
  | None => false
  end.


End ProcessTracker.

(** ** [GameMonitor] *)

Module GameMonitor.

(** [status_info] of [_update_status]. *)
Record status_info := {
  overall_status : string;
  timestamp : Q;
  si_game_running : bool;
  si_connection_active : bool;
  process_info : ProcessTracker.current_status;
  connection_info : ConnectionMonitor.connection_status;
}.

Inductive signal :=
  | game_status_changed (status : string) (full_info : status_info)
  | alert_triggered (alert_type message : string)
  | alert_callback (callback : nat) (alert_type message : string).

Record monitor := {
  process_tracker : ProcessTracker.tracker;
  connection_monitor : ConnectionMonitor.monitor;
  game_running : bool;
  connection_active : bool;
  last_status_update : Q;
  alerts_enabled : bool;
  alert_callbacks : list nat;
  log_data : bool;
  status_history : list status_info;
}.

Definition init : monitor := {|
  process_tracker := ProcessTracker.init;
  connection_monitor := ConnectionMonitor.init;
  game_running := false;
  connection_active := false;
  last_status_update := 0;
  alerts_enabled := true;
  alert_callbacks := [];
  log_data := true;
  status_history := [];
|}.

Definition set_flags (g : monitor) (running active : bool) : monitor :=
  {| process_tracker := process_tracker g;
     connection_monitor := connection_monitor g;
     game_running := running;
     connection_active := active;
     last_status_update := last_status_update g;
     alerts_enabled := alerts_enabled g;
     alert_callbacks := alert_callbacks g;
     log_data := log_data g;
     status_history := status_history g |}.

Definition max_history : nat := 1000.

(** [_log_status_data]. *)
Definition log_status_data (history : list status_info) (info : status_info)
    : list status_info :=
  let appended := history ++ [info] in
  if (max_history <? length appended)%nat
  then Py.last_items 1000 appended
  else appended.

(** The [if]/[elif] chain of [_update_status]. *)
Definition determine_overall (running active : bool) : string :=
  if running && active then "running_connected"
  else if running && negb active then "running_disconnected"
  else if negb running && active then "not_running_connected"
  else "not_running_disconnected".

(** [_update_status] at clock reading [current_time]. *)
Definition update_status (g : monitor) (current_time : Q) : monitor * list signal :=
  let process_status :=
    ProcessTracker.get_current_status (process_tracker g) current_time in
  let connection_status :=
    ConnectionMonitor.get_connection_status (connection_monitor g) in
  let overall := determine_overall (game_running g) (connection_active g) in
  let info :=
    {| overall_status := overall;
       timestamp := current_time;
       si_game_running := game_running g;
       si_connection_active := connection_active g;
       process_info := process_status;
       connection_info := connection_status |} in
  ({| process_tracker := process_tracker g;
      connection_monitor := connection_monitor g;
      game_running := game_running g;
      connection_active := connection_active g;
      last_status_update := current_time;
      alerts_enabled := alerts_enabled g;
      alert_callbacks := alert_callbacks g;
      log_data := log_data g;
      status_history :=
        if log_data g then log_status_data (status_history g) info
        else status_history g |},
   [game_status_changed overall info]).

(** [_trigger_alert]. *)
Definition trigger_alert (g : monitor) (alert_type message : string) : list signal :=
  if alerts_enabled g
  then alert_triggered alert_type message
       :: map (fun cb => alert_callback cb alert_type message) (alert_callbacks g)
  else [].

Definition handle (g : monitor) (running active : bool)
    (alert_type message : string) (current_time : Q) : monitor * list signal :=
  let g1 := set_flags g running active in
  let alerts := trigger_alert g1 alert_type message in
  let '(g2, emitted) := update_status g1 current_time in
  (g2, alerts ++ emitted).

(** The slots connected in [_setup_connections]. *)
Definition on_process_found (g : monitor) (pid : Z) (process_name : string)
    (current_time : Q) : monitor * list signal :=
  handle g true (connection_active g) "process_found"
    ("Game process found: " +:+ process_name +:+ " (PID: " +:+ pretty pid +:+ ")")
    current_time.

Definition on_process_lost (g : monitor) (pid : Z) (current_time : Q)
    : monitor * list signal :=
  handle g false (connection_active g) "process_lost"
    ("Game process lost (PID: " +:+ pretty pid +:+ ")") current_time.

Definition on_process_status_changed (g : monitor) (current_time : Q)
    : monitor * list signal :=
  update_status g current_time.

Definition on_connection_established (g : monitor) (connection_type : string)
    (current_time : Q) : monitor * list signal :=
  handle g (game_running g) true "connection_established"
    ("Connection established: " +:+ connection_type) current_time.

Definition on_connection_lost (g : monitor) (reason : string) (current_time : Q)
    : monitor * list signal :=
  handle g (game_running g) false "connection_lost"
    ("Connection lost: " +:+ reason) current_time.

Definition on_connection_status_changed (g : monitor)
    (details : ConnectionMonitor.status_info) (current_time : Q)
    : monitor * list signal :=
  update_status (set_flags g (game_running g) (ConnectionMonitor.s_connected details))
    current_time.

(** The table of the specification: the overall status for each pair
    (running, connected). *)
Definition overall_table (running connected : bool) : string :=
  match running, connected with
  | true, true => "running_connected"
  | true, false => "running_disconnected"
  | false, true => "not_running_connected"
  | false, false => "not_running_disconnected"
  end.

(** [get_status_history]. *)
Definition get_status_history (g : monitor) (limit : Z) : list status_info :=
  if Py.truthy (status_history g)
  then Py.last_items limit (status_history g)
  else [].

(** [add_alert_callback], [set_alerts_enabled], [set_data_logging]. *)
Definition add_alert_callback (g : monitor) (callback : nat) : monitor :=
  {| process_tracker := process_tracker g;
     connection_monitor := connection_monitor g;
     game_running := game_running g;
     connection_active := connection_active g;
     last_status_update := last_status_update g;
     alerts_enabled := alerts_enabled g;
     alert_callbacks := Py.append_new callback (alert_callbacks g);
     log_data := log_data g;
     status_history := status_history g |}.

Definition set_alerts_enabled (g : monitor) (enabled : bool) : monitor :=
  {| process_tracker := process_tracker g;
     connection_monitor := connection_monitor g;
     game_running := game_running g;
     connection_active := connection_active g;
     last_status_update := last_status_update g;
     alerts_enabled := enabled;
     alert_callbacks := alert_callbacks g;
     log_data := log_data g;
     status_history := status_history g |}.

Definition set_data_logging (g : monitor) (enabled : bool) : monitor :=
  {| process_tracker := process_tracker g;
     connection_monitor := connection_monitor g;
     game_running := game_running g;
     connection_active := connection_active g;
     last_status_update := last_status_update g;
     alerts_enabled := alerts_enabled g;
     alert_callbacks := alert_callbacks g;
     log_data := enabled;
     status_history := status_history g |}.

(** The signals of the two monitors as [_setup_connections] routes them
    to the slots. *)
Inductive delivery :=
  | process_found (pid : Z) (process_name : string)
  | process_lost (pid : Z)
  | process_status_changed
  | connection_established (connection_type : string)
  | connection_lost (reason : string)
  | connection_status_changed (details : ConnectionMonitor.status_info).

Definition deliver (g : monitor) (d : delivery) (current_time : Q)
    : monitor * list signal :=
  match d with
  | process_found pid process_name => on_process_found g pid process_name current_time
  | process_lost pid => on_process_lost g pid current_time
  | process_status_changed => on_process_status_changed g current_time
  | connection_established connection_type =>
      on_connection_established g connection_type current_time
  | connection_lost reason => on_connection_lost g reason current_time
  | connection_status_changed details =>
      on_connection_status_changed g details current_time
  end.

(** Deliveries one after the other, each with its clock reading. *)
Definition deliver_all (g : monitor) (ds : list (delivery * Q)) : monitor :=
  foldl (fun g' d => (deliver g' d.1 d.2).1) g ds.

Definition is_alert (s : signal) : bool :=
  match s with
  | alert_triggered _ _ | alert_callback _ _ _ => true
  | game_status_changed _ _ => false
  end.

(** What the last delivery of each kind says about the two flags. *)
Definition running_after (running : bool) (d : delivery) : bool :=
  match d with
  | process_found _ _ => true
  | process_lost _ => false
  | _ => running
  end.

Definition active_after (active : bool) (d : delivery) : bool :=
  match d with
  | connection_established _ => true
  | connection_lost _ => false
  | connection_status_changed details => ConnectionMonitor.s_connected details
  | _ => active
  end.


End GameMonitor.

(** ** [EventManager] *)

Module EventManager.

Record event := {
  name : string;
  data : Py.value;
  timestamp : Q;
  source : option string;
  event_id : string * Q;
}.

(** What a subscriber does when it is called: it returns, or it raises
    an [Exception]. *)
Inductive outcome := returned | raised (msg : string).

(** A subscriber entry: the callable (by identity) and its priority. *)
Record callback_info := {
  callback : nat;
  priority : Z;
}.

(** What a publish does, in the order in which it does it. *)
Inductive step :=
  | recorded (e : event)
  | invoked (cb : nat) (e : event)
  | logged_error (cb : nat) (msg : string).

Record manager := {
  subscribers : gmap string (list callback_info);
  event_history : list event;
}.

Definition max_history : nat := 1000.

Definition init : manager :=
  {| subscribers := ∅; event_history := [] |}.

(** [list.sort(key=priority, reverse=True)]: stable, highest first. *)
Fixpoint insert_by_priority (x : callback_info) (l : list callback_info)
    : list callback_info :=
  match l with
  | [] => [x]
  | y :: rest =>
      if (priority x <? priority y)%Z
      then y :: insert_by_priority x rest
      else x :: y :: rest
  end.

Definition sort_by_priority (l : list callback_info) : list callback_info :=
  foldr insert_by_priority [] l.

Definition subscribe (m : manager) (event_name : string) (cb : nat) (prio : Z)
    : manager :=
  let current := default [] (subscribers m !! event_name) in
  let callback_info := {| callback := cb; priority := prio |} in
  {| subscribers :=
       <[event_name := sort_by_priority (current ++ [callback_info])]> (subscribers m);
     event_history := event_history m |}.

Definition unsubscribe (m : manager) (event_name : string) (cb : nat) : manager :=
  match subscribers m !! event_name with
  | Some current =>
      let kept := filter (fun cb_info => callback cb_info ≠ cb) current in
      {| subscribers :=
           if Py.truthy kept
           then <[event_name := kept]> (subscribers m)
           else delete event_name (subscribers m);
         event_history := event_history m |}
  | None => m
  end.

(** [_notify_subscribers]: every entry is called inside its own
    [try]/[except Exception]. *)
Definition notify_subscribers (m : manager) (run : nat -> event -> outcome)
    (e : event) : list step :=
  let subscribers := default [] (subscribers m !! name e) in
  flat_map
    (fun subscriber_info =>
       let cb := callback subscriber_info in
       invoked cb e ::
       match run cb e with
       | returned => []
       | raised msg => [logged_error cb msg]
       end)
    subscribers.

(** [publish] with the two clock readings it takes. *)
Definition publish (m : manager) (run : nat -> event -> outcome)
    (event_name : string) (payload : Py.value) (src : option string)
    (now1 now2 : Q) : manager * list step :=
  let e := {| name := event_name; data := payload; timestamp := now1;
              source := src; event_id := (event_name, now2) |} in
  let appended := event_history m ++ [e] in
  let m1 :=
    {| subscribers := subscribers m;
       event_history :=
         if (max_history <? length appended)%nat
         then drop 1 appended
         else appended |} in
  (m1, recorded e :: notify_subscribers m1 run e).

(** [get_event_history]; an empty [event_name] is falsy, like [None]. *)
Definition get_event_history (m : manager) (event_name : option string)
    (limit : Z) : list event :=
  match event_name with
  | Some n =>
      if String.eqb n EmptyString then Py.last_items limit (event_history m)
      else
        let filtered_events :=
          filter (fun e => name e = n) (event_history m) in
        Py.last_items limit filtered_events
  | None => Py.last_items limit (event_history m)
  end.

Definition get_subscribers (m : manager) (event_name : string) : nat :=
  length (default [] (subscribers m !! event_name)).

Definition has_subscribers (m : manager) (event_name : string) : bool :=
  match subscribers m !! event_name with
  | Some l => (0 <? length l)%nat
  | None => false
  end.

Definition is_invocation (s : step) : bool :=
  match s with invoked _ _ => true | _ => false end.

Definition is_record (s : step) : bool :=
  match s with recorded _ => true | _ => false end.

(** [clear_history]. *)
Definition clear_history (m : manager) : manager :=
  {| subscribers := subscribers m; event_history := [] |}.

(** A publish request: name, payload, source and the two clock
    readings. *)
Definition request : Type := string * Py.value * option string * Q * Q.

Definition event_of (r : request) : event :=
  let '(event_name, payload, src, now1, now2) := r in
  {| name := event_name; data := payload; timestamp := now1;
     source := src; event_id := (event_name, now2) |}.

Definition publish_all (m : manager) (run : nat -> event -> outcome)
    (requests : list request) : manager :=
  foldl (fun m' r =>
           let '(event_name, payload, src, now1, now2) := r in
           (publish m' run event_name payload src now1 now2).1)
        m requests.

(** Highest priority first. *)
Definition by_priority (a b : callback_info) : Prop :=
  (priority b <= priority a)%Z.

(** The managers that [subscribe] and [unsubscribe] build. *)
Inductive built : manager -> Prop :=
  | built_init : built init
  | built_subscribe m event_name cb prio :
      built m -> built (subscribe m event_name cb prio)
  | built_unsubscribe m event_name cb :
      built m -> built (unsubscribe m event_name cb)
  | built_publish m run event_name payload src now1 now2 :
      built m -> built (publish m run event_name payload src now1 now2).1
  | built_clear m : built m -> built (clear_history m).


End EventManager.

(** ** [ServiceRegistry] *)

Module ServiceRegistry.

(** Objects are known by their identity. *)
Definition instance : Type := nat.

(** What calling a registered class or factory does: build a new object,
    hand out an object that exists already (possibly [None]), raise an
    exception that is no [ServiceException] (with [msg] its [str]), or
    raise a [ServiceException] of its own. *)
Inductive callable :=
  | constructs
  | yields (obj : option instance)
  | fails (msg : string)
  | fails_in_service (service_name msg : string).

(** The exceptions a call can end in. *)
Inductive raised :=
  | exception (msg : string)
  | ServiceException (service_name msg : string).

Inductive call :=
  | class_called (name : string)
  | factory_called (name : string).

Inductive result :=
  | service (obj : option instance)
  | service_exception (name msg : string).

(** The registry, with [fresh] the identity the next new object gets. *)
Record registry := {
  services : gmap string callable;
  factories : gmap string callable;
  singletons : gmap string (option instance);
  dependencies : gmap string (list string);
  fresh : instance;
}.

Definition init : registry :=
  {| services := ∅; factories := ∅; singletons := ∅; dependencies := ∅;
     fresh := 0 |}.

Definition register_service (r : registry) (name : string)
    (service_class : callable) (singleton : bool) : registry :=
  {| services := <[name := service_class]> (services r);
     factories := factories r;
     singletons :=
       if singleton then <[name := None]> (singletons r) else singletons r;
     dependencies := dependencies r;
     fresh := fresh r |}.

Definition register_factory (r : registry) (name : string) (factory : callable)
    : registry :=
  {| services := services r;
     factories := <[name := factory]> (factories r);
     singletons := singletons r;
     dependencies := dependencies r;
     fresh := fresh r |}.

Definition register_instance (r : registry) (name : string)
    (obj : option instance) : registry :=
  {| services := services r;
     factories := factories r;
     singletons := <[name := obj]> (singletons r);
     dependencies := dependencies r;
     fresh := fresh r |}.

(** Calling a class or factory: the object it returns, or the
    exception it raises, and the next fresh identity. *)
Definition invoke (c : callable) (next : instance)
    : (option instance + raised) * instance :=
  match c with
  | constructs => (inl (Some next), S next)
  | yields obj => (inl obj, next)
  | fails msg => (inr (exception msg), next)
  | fails_in_service service_name msg =>
      (inr (ServiceException service_name msg), next)
  end.

(** The handler of [get_service]: a [ServiceException] goes on to the
    caller as it is, any other exception is wrapped into one. *)
Definition handled (name : string) (e : raised) : result :=
  match e with
  | ServiceException service_name msg => service_exception service_name msg
  | exception msg => service_exception name ("Failed to get service: " +:+ msg)
  end.

Definition with_fresh (r : registry) (next : instance) : registry :=
  {| services := services r; factories := factories r;
     singletons := singletons r; dependencies := dependencies r;
     fresh := next |}.

Definition with_singleton (r : registry) (name : string) (obj : option instance)
    (next : instance) : registry :=
  {| services := services r; factories := factories r;
     singletons := <[name := obj]> (singletons r);
     dependencies := dependencies r;
     fresh := next |}.

(** [get_service]: the registry afterwards, the classes and factories
    it called, and what the caller gets. *)
Definition get_service (r : registry) (name : string)
    : registry * list call * result :=
  match singletons r !! name with
  | Some (Some obj) => (r, [], service (Some obj))
  | Some None =>
      match services r !! name, factories r !! name with
      | Some cls, _ =>
          match invoke cls (fresh r) with
          | (inl obj, next) =>
              (with_singleton r name obj next, [class_called name], service obj)
          | (inr e, next) =>
              (with_fresh r next, [class_called name], handled name e)
          end
      | None, Some factory =>
          match invoke factory (fresh r) with
          | (inl obj, next) =>
              (with_singleton r name obj next, [factory_called name], service obj)
          | (inr e, next) =>
              (with_fresh r next, [factory_called name], handled name e)
          end
      | None, None => (r, [], service_exception name "Service not registered")
      end
  | None =>
      match services r !! name, factories r !! name with
      | Some cls, _ =>
          match invoke cls (fresh r) with
          | (inl obj, next) => (with_fresh r next, [class_called name], service obj)
          | (inr e, next) =>
              (with_fresh r next, [class_called name], handled name e)
          end
      | None, Some factory =>
          match invoke factory (fresh r) with
          | (inl obj, next) =>
              (with_fresh r next, [factory_called name], service obj)
          | (inr e, next) =>
              (with_fresh r next, [factory_called name], handled name e)
          end
      | None, None => (r, [], service_exception name "Service not found")
      end
  end.

Definition has_service (r : registry) (name : string) : bool :=
  bool_decide (is_Some (services r !! name))
  || bool_decide (is_Some (factories r !! name))
  || bool_decide (is_Some (singletons r !! name)).

Definition unregister_service (r : registry) (name : string) : registry :=
  {| services := delete name (services r);
     factories := delete name (factories r);
     singletons := delete name (singletons r);
     dependencies := delete name (dependencies r);
     fresh := fresh r |}.

(** Repeated lookups of one name: the calls made and the results, in
    order. *)
Fixpoint get_many (r : registry) (name : string) (n : nat)
    : registry * list call * list result :=
  match n with
  | 0 => (r, [], [])
  | S k =>
      let '(r1, calls1, res) := get_service r name in
      let '(r2, calls2, rest) := get_many r1 name k in
      (r2, calls1 ++ calls2, res :: rest)
  end.

(** [add_dependency] and [get_dependencies]. *)
Definition add_dependency (r : registry) (service_name dependency_name : string)
    : registry :=
  {| services := services r;
     factories := factories r;
     singletons := singletons r;
     dependencies :=
       <[service_name :=
           Py.append_new dependency_name
             (default [] (dependencies r !! service_name))]> (dependencies r);
     fresh := fresh r |}.

Definition get_dependencies (r : registry) (service_name : string) : list string :=
  default [] (dependencies r !! service_name).

(** [list_services]: the three loops write into one dictionary, so a
    later kind replaces an earlier one. *)
Definition list_services (r : registry) : gmap string string :=
  ((fun _ => "singleton") <$> singletons r)
  ∪ (((fun _ => "factory") <$> factories r)
     ∪ ((fun _ => "class") <$> services r)).


End ServiceRegistry.

(** ** [ConfigurationBridge] *)

Module ConfigurationBridge.

(** What a serializer did to the open file: it wrote the whole text, or
    it raised after writing some part of it. *)
Inductive dumped (text : Type) :=
  | written (t : text)
  | dump_failed (partial : text).
Arguments written {text} t.
Arguments dump_failed {text} partial.

(** The three libraries the bridge delegates to ([yaml], [json],
    [configparser]).  A [None] result stands for a raised exception. *)
Class Libraries := {
  text : Type;
  empty_text : text;
  yaml_dump : Py.mapping -> dumped text;
  yaml_safe_load : text -> option Py.value;
  json_dump : Py.mapping -> dumped text;
  json_load : text -> option Py.value;
  parser : Type;
  ConfigParser : parser;
  setitem : parser -> string -> Py.value -> option parser;
  parser_write : parser -> text;
  read_string : parser -> text -> option parser;
  sections_dict : parser -> option Py.value;
}.

Inductive notification :=
  | change_callback (cb : nat) (config_name : string) (config_data : Py.mapping).

(** The part of [pathlib] the bridge uses.  A configuration file is
    [config_path / (config_name + ext)], where logical names are plain
    file stems (no path separator); a name that is empty leaves a dot
    file, which has no suffix. *)
Definition suffix (config_name ext : string) : string :=
  if String.eqb config_name EmptyString then EmptyString else ext.

Definition stem (config_name ext : string) : string :=
  if String.eqb config_name EmptyString then ext else config_name.

Definition extensions : list string := [".yaml"; ".yml"; ".json"; ".ini"; ".cfg"].

Section Bridge.
Context `{Libraries}.

(** The two directories of the bridge, each a map from the names of its
    files to their contents, and what the operating system refuses: the
    files of the configuration directory that cannot be opened for
    writing, whether the configuration directory can be made, and
    whether the backup directory takes new files.  A name stands for a
    file of the directory when it is a single path component
    ([Py.plain_name]); a name with a separator in it is joined by
    [pathlib] to a path below or outside the directory, which these
    maps do not follow.  Different names are different files, and the
    backup directory holds files only. *)
Record filesystem := {
  config_dir : gmap string text;
  backup_dir : gmap string text;
  read_only : gset string;
  can_mkdir : bool;
  backups_writable : bool;
}.

Record bridge := {
  observers : gmap string nat;
  config_cache : gmap string Py.value;
  change_callbacks : gmap string nat;
}.

(** The name [config_name + ext] that [_find_config_file] and
    [_create_config_file] join to [config_path]: an entry of the
    configuration directory when [config_name] is a single path
    component. *)
Definition file_name (config_name ext : string) : string :=
  config_name +:+ ext.

Definition exists_ (fs : filesystem) (p : string) : bool :=
  bool_decide (is_Some (config_dir fs !! p)).

Definition put (fs : filesystem) (p : string) (t : text) : filesystem :=
  {| config_dir := <[p := t]> (config_dir fs);
     backup_dir := backup_dir fs;
     read_only := read_only fs;
     can_mkdir := can_mkdir fs;
     backups_writable := backups_writable fs |}.

Definition put_backup (fs : filesystem) (p : string) (t : text) : filesystem :=
  {| config_dir := config_dir fs;
     backup_dir := <[p := t]> (backup_dir fs);
     read_only := read_only fs;
     can_mkdir := can_mkdir fs;
     backups_writable := backups_writable fs |}.

Definition with_cache (b : bridge) (cache : gmap string Py.value) : bridge :=
  {| observers := observers b;
     config_cache := cache;
     change_callbacks := change_callbacks b |}.

(** [_find_config_file]: the extension of the first candidate that
    exists. *)
Definition find_config_file (fs : filesystem) (config_name : string)
    : option string :=
  List.find (fun ext => exists_ fs (file_name config_name ext)) extensions.

(** [_create_config_file]: new files are YAML. *)
Definition create_config_file (fs : filesystem) (config_name : string)
    : option string :=
  if can_mkdir fs then Some ".yaml" else None.

(** [_read_config_file]. *)
Definition read_config_file (fs : filesystem)
    (config_name ext : string) : option Py.value :=
  let extension := Py.lower (suffix config_name ext) in
  match config_dir fs !! file_name config_name ext with
  | None => None
  | Some f =>
      if bool_decide (extension ∈ [".yaml"; ".yml"]) then
        v ← yaml_safe_load f;
        Some (if Py.is_true v then v else Py.py_dict [])
      else if String.eqb extension ".json" then
        v ← json_load f;
        Some (if Py.is_true v then v else Py.py_dict [])
      else if bool_decide (extension ∈ [".ini"; ".cfg"]) then
        config ← read_string ConfigParser f;
        sections_dict config
      else None
  end.

(** The loop [for section, values in config_data.items()]. *)
Fixpoint fill_parser (config : parser) (config_data : Py.mapping) : option parser :=
  match config_data with
  | [] => Some config
  | (section, values) :: rest =>
      config' ← setitem config section values;
      fill_parser config' rest
  end.

(** [_write_config_file]: opening for writing truncates the file
    before anything is serialized. *)
Definition write_config_file (fs : filesystem)
    (config_name ext : string) (config_data : Py.mapping) : filesystem * bool :=
  let extension := Py.lower (suffix config_name ext) in
  let p := file_name config_name ext in
  if bool_decide (p ∈ read_only fs) then (fs, false)
  else if bool_decide (extension ∈ [".yaml"; ".yml"]) then
    match yaml_dump config_data with
    | written t => (put fs p t, true)
    | dump_failed t => (put fs p t, false)
    end
  else if String.eqb extension ".json" then
    match json_dump config_data with
    | written t => (put fs p t, true)
    | dump_failed t => (put fs p t, false)
    end
  else if bool_decide (extension ∈ [".ini"; ".cfg"]) then
    match fill_parser ConfigParser config_data with
    | Some config => (put fs p (parser_write config), true)
    | None => (put fs p empty_text, false)
    end
  else (put fs p empty_text, false).

(** [_create_backup] at the formatted clock reading [timestamp]. *)
Definition create_backup (fs : filesystem)
    (config_name ext timestamp : string) : filesystem * bool :=
  let backup_name :=
    stem config_name ext +:+ "_" +:+ timestamp +:+ suffix config_name ext in
  match config_dir fs !! file_name config_name ext with
  | Some content =>
      if backups_writable fs
      then (put_backup fs backup_name content, true)
      else (fs, false)
  | None => (fs, false)
  end.

(** [_notify_config_change]; an exception of the callback is caught. *)
Definition notify_config_change (b : bridge) (config_name : string)
    (config_data : Py.mapping) : list notification :=
  match change_callbacks b !! config_name with
  | Some cb => [change_callback cb config_name config_data]
  | None => []
  end.

(** [read_config]. *)
Definition read_config (b : bridge) (fs : filesystem) (config_name : string)
    (use_cache : bool) : bridge * option Py.value :=
  match (if use_cache then config_cache b !! config_name else None) with
  | Some cached => (b, if Py.has_copy cached then Some cached else None)
  | None =>
      match find_config_file fs config_name with
      | None => (b, None)
      | Some ext =>
          match read_config_file fs config_name ext with
          | Some config_data =>
              if Py.has_copy config_data
              then (with_cache b (<[config_name := config_data]> (config_cache b)),
                    Some config_data)
              else (b, None)
          | None => (b, None)
          end
      end
  end.

(** The file [write_config] writes to: the one found, else a new one. *)
Definition target_file (fs : filesystem) (config_name : string) : option string :=
  match find_config_file fs config_name with
  | Some ext => Some ext
  | None => create_config_file fs config_name
  end.

(** [write_config]. *)
Definition write_config (b : bridge) (fs : filesystem) (config_name : string)
    (config_data : Py.mapping) (backup : bool) (timestamp : string)
    : bridge * filesystem * list notification * bool :=
  match target_file fs config_name with
  | None => (b, fs, [], false)
  | Some ext =>
      let fs1 :=
        if backup && exists_ fs (file_name config_name ext)
        then (create_backup fs config_name ext timestamp).1
        else fs in
      let '(fs2, success) := write_config_file fs1 config_name ext config_data in
      if success
      then (with_cache b (<[config_name := Py.py_dict config_data]> (config_cache b)),
            fs2,
            notify_config_change b config_name config_data,
            true)
      else (b, fs2, [], false)
  end.

(** The library of a format gives back the mapping it serialized. *)
Definition reloads (extension : string) (config_data : Py.mapping) : Prop :=
  if bool_decide (extension ∈ [".yaml"; ".yml"]) then
    exists t, yaml_dump config_data = written t
              /\ yaml_safe_load t = Some (Py.py_dict config_data)
  else if String.eqb extension ".json" then
    exists t, json_dump config_data = written t
              /\ json_load t = Some (Py.py_dict config_data)
  else if bool_decide (extension ∈ [".ini"; ".cfg"]) then
    exists config config',
      fill_parser ConfigParser config_data = Some config
      /\ read_string ConfigParser (parser_write config) = Some config'
      /\ sections_dict config' = Some (Py.py_dict config_data)
  else False.

(** The outcome of [validate_config]. *)
Record validation := {
  valid : bool;
  errors : list string;
  warnings : list string;
  suggestions : list string;
}.

(** [_validate_main_config]. *)
Definition validate_main_config (config_data : Py.mapping) : list string :=
  flat_map
    (fun field =>
       if bool_decide (field ∈ map fst config_data) then []
       else ["Missing recommended field: " +:+ field])
    ["version"].

(** [_validate_common_issues]: [value == ""] holds for the empty string
    alone. *)
Definition validate_common_issues (config_data : Py.mapping) : list string :=
  flat_map
    (fun kv =>
       match kv.2 with
       | Py.py_str s =>
           if String.eqb s EmptyString then ["Empty value for key: " +:+ kv.1] else []
       | _ => []
       end)
    config_data.

(** [validate_config]. *)
Definition validate_config (config_name : string) (config_data : Py.value)
    : validation :=
  match config_data with
  | Py.py_dict items =>
      {| valid := true;
         errors := [];
         warnings :=
           (if String.eqb config_name "config" then validate_main_config items
            else [])
           ++ validate_common_issues items;
         suggestions := [] |}
  | _ =>
      {| valid := false;
         errors := ["Configuration must be a dictionary"];
         warnings := [];
         suggestions := [] |}
  end.

(** [restore_backup] at the formatted clock reading [timestamp].
    [backup_path / backup_name] exists when it is a backup file, and
    also when the name is one that a join turns into a directory
    ([Py.dot_name]: the backup directory itself or its parent): the
    code then goes on, writes the backup of the current file, and only
    [copy2] raises, on opening a directory as its source. *)
Definition restore_backup (b : bridge) (fs : filesystem)
    (config_name backup_name timestamp : string) : bridge * filesystem * bool :=
  match backup_dir fs !! backup_name with
  | None =>
      if Py.dot_name backup_name then
        match find_config_file fs config_name with
        | None => (b, fs, false)
        | Some ext => (b, (create_backup fs config_name ext timestamp).1, false)
        end
      else (b, fs, false)
  | Some _ =>
      match find_config_file fs config_name with
      | None => (b, fs, false)
      | Some ext =>
          let fs1 := (create_backup fs config_name ext timestamp).1 in
          match backup_dir fs1 !! backup_name with
          | Some content =>
              if bool_decide (file_name config_name ext ∈ read_only fs1)
              then (b, fs1, false)
              else (with_cache b (delete config_name (config_cache b)),
                    put fs1 (file_name config_name ext) content,
                    true)
          | None => (b, fs1, false)
          end
      end
  end.

(** [stop_monitoring]. *)
Definition stop_monitoring (b : bridge) (config_name : string) : bridge :=
  {| observers := delete config_name (observers b);
     config_cache := config_cache b;
     change_callbacks := delete config_name (change_callbacks b) |}.

(** [start_monitoring] with the observer it makes; [started] tells
    whether the observer could be scheduled and started. *)
Definition start_monitoring (b : bridge) (fs : filesystem) (config_name : string)
    (callback observer : nat) (started : bool) : bridge * bool :=
  match find_config_file fs config_name with
  | None => (b, false)
  | Some _ =>
      let b1 :=
        if bool_decide (is_Some (observers b !! config_name))
        then stop_monitoring b config_name else b in
      if started
      then ({| observers := <[config_name := observer]> (observers b1);
               config_cache := config_cache b1;
               change_callbacks := <[config_name := callback]> (change_callbacks b1) |},
            true)
      else (b1, false)
  end.

(** [cleanup]. *)
Definition cleanup (b : bridge) : bridge :=
  {| observers := ∅; config_cache := ∅; change_callbacks := ∅ |}.

(** [get_config_list]: the stems of the files with a known suffix,
    sorted. *)
Definition get_config_list (fs : filesystem) : list string :=
  merge_sort Py.string_le
    (omap (fun file =>
             if bool_decide (Py.lower (Py.path_suffix file) ∈ extensions)
             then Some (Py.path_stem file) else None)
          (map fst (map_to_list (config_dir fs)))).


End Bridge.

(** *** A reference model of the three libraries

    Texts are kept as the documents they denote, each tagged with the
    library that wrote it; a library reads back what it wrote and
    rejects the texts of the other two.  The model is exact on plain
    data: string keys, no section called [DEFAULT], no [%] and no
    surrounding blanks in option names and values. *)
Module Reference.

Definition sections : Type := list (string * list (string * string)).

Inductive document :=
  | blank
  | yaml_document (v : Py.value)
  | json_document (v : Py.value)
  | ini_document (s : sections)
  | malformed (s : string).

Definition quote1 : string := "'".
Definition quote2 : string := String (ascii_of_nat 34) EmptyString.

Definition hex_digit (n : nat) : ascii :=
  ascii_of_nat (if (n <? 10)%nat then 48 + n else 87 + n).

Definition escape_char (quote : string) (c : ascii) : string :=
  let n := nat_of_ascii c in
  let one := String c EmptyString in
  if (n =? 92)%nat then String c one
  else if String.eqb one quote then String (ascii_of_nat 92) one
  else if (n =? 10)%nat then String (ascii_of_nat 92) "n"
  else if (n =? 13)%nat then String (ascii_of_nat 92) "r"
  else if (n =? 9)%nat then String (ascii_of_nat 92) "t"
  else if ((n <? 32) || (n =? 127))%nat
  then String (ascii_of_nat 92)
         (String "x" (String (hex_digit (n / 16))
                        (String (hex_digit (n mod 16)) EmptyString)))
  else one.

Fixpoint escape (quote s : string) : string :=
  match s with
  | EmptyString => EmptyString
  | String c rest => escape_char quote c +:+ escape quote rest
  end.

(** [repr] of a string. *)
Definition repr_string (s : string) : string :=
  let quote :=
    if Py.contains quote1 s && negb (Py.contains quote2 s)
    then quote2 else quote1 in
  quote +:+ escape quote s +:+ quote.

Fixpoint join (sep : string) (l : list string) : string :=
  match l with
  | [] => EmptyString
  | [x] => x
  | x :: rest => x +:+ sep +:+ join sep rest
  end.

(** [repr] of plain data. *)
Fixpoint repr (v : Py.value) : string :=
  match v with
  | Py.py_none => "None"
  | Py.py_bool b => if b then "True" else "False"
  | Py.py_int z => pretty z
  | Py.py_str s => repr_string s
  | Py.py_list items => "[" +:+ join ", " (map repr items) +:+ "]"
  | Py.py_dict items =>
      "{" +:+ join ", "
                (map (fun kv => repr_string kv.1 +:+ ": " +:+ repr kv.2) items)
          +:+ "}"
  end.

(** [str] of plain data. *)
Definition str (v : Py.value) : string :=
  match v with
  | Py.py_str s => s
  | _ => repr v
  end.

(** The options of one section as [read_dict] stores them: names are
    lower-cased, values go through [str]; [None] values and names that
    collide are refused. *)
Fixpoint options_of (items : list (string * Py.value))
    (acc : list (string * string)) : option (list (string * string)) :=
  match items with
  | [] => Some acc
  | (key, v) :: rest =>
      let key' := Py.lower key in
      match v with
      | Py.py_none => None
      | _ =>
          if bool_decide (key' ∈ map fst acc) then None
          else options_of rest (acc ++ [(key', str v)])
      end
  end.

Fixpoint replace_section (s : sections) (section : string)
    (options : list (string * string)) : sections :=
  match s with
  | [] => [(section, options)]
  | (n, o) :: rest =>
      if String.eqb n section then (n, options) :: rest
      else (n, o) :: replace_section rest section options
  end.

(** [config[section] = values]: [values] must be a mapping. *)
Definition set_section (s : sections) (section : string) (values : Py.value)
    : option sections :=
  match values with
  | Py.py_dict items =>
      options ← options_of items [];
      Some (replace_section s section options)
  | _ => None
  end.

Definition section_dicts (s : sections) : Py.value :=
  Py.py_dict
    (map (fun so => (so.1, Py.py_dict (map (fun kv => (kv.1, Py.py_str kv.2)) so.2)))
         s).

Definition libraries : Libraries := {|
  text := document;
  empty_text := blank;
  yaml_dump := fun d => written (yaml_document (Py.py_dict d));
  yaml_safe_load := fun t =>
    match t with
    | blank => Some Py.py_none
    | yaml_document v => Some v
    | _ => None
    end;
  json_dump := fun d => written (json_document (Py.py_dict d));
  json_load := fun t =>
    match t with
    | json_document v => Some v
    | _ => None
    end;
  parser := sections;
  ConfigParser := [];
  setitem := set_section;
  parser_write := ini_document;
  read_string := fun config t =>
    match t with
    | blank => Some config
    | ini_document s => Some (config ++ s)
    | _ => None
    end;
  sections_dict := fun config => Some (section_dicts config);
|}.

End Reference.

End ConfigurationBridge.

(** ** Sample runs *)

Module Examples.

(** A game process that answers every query. *)
Definition first_process : ProcessTracker.process :=
  {| ProcessTracker.pid := 1;
     ProcessTracker.name := ProcessTracker.returns "rf4.exe";
     ProcessTracker.create_time := ProcessTracker.returns 5%Q;
     ProcessTracker.status := ProcessTracker.returns "running";
     ProcessTracker.extra := ProcessTracker.raises ProcessTracker.AccessDenied;
     ProcessTracker.is_running := true |}.

(** A game process that is gone by the time its status is asked. *)
Definition vanishing_process : ProcessTracker.process :=
  {| ProcessTracker.pid := 2;
     ProcessTracker.name := ProcessTracker.returns "RF4.exe";
     ProcessTracker.create_time := ProcessTracker.returns 9%Q;
     ProcessTracker.status := ProcessTracker.raises ProcessTracker.NoSuchProcess;
     ProcessTracker.extra := ProcessTracker.raises ProcessTracker.NoSuchProcess;
     ProcessTracker.is_running := true |}.

Definition first_scan : list (ProcessTracker.process * ProcessTracker.proc_info) :=
  [(first_process,
    {| ProcessTracker.info_pid := 1; ProcessTracker.info_name := Some "rf4.exe" |})].

Definition second_scan : list (ProcessTracker.process * ProcessTracker.proc_info) :=
  [(vanishing_process,
    {| ProcessTracker.info_pid := 2; ProcessTracker.info_name := Some "RF4.exe" |})].

(** The tracker after its first scan: it follows pid 1. *)
Definition tracking_first : ProcessTracker.tracker :=
  (ProcessTracker.scan_processes ProcessTracker.init first_scan).1.

(** Two subscribers of one event, the first of which raises. *)
Definition two_subscribers : EventManager.manager :=
  EventManager.subscribe
    (EventManager.subscribe EventManager.init "tick" 1 0) "tick" 2 0.

Definition first_raises (cb : nat) (e : EventManager.event) : EventManager.outcome :=
  if (cb =? 1)%nat then EventManager.raised "boom" else EventManager.returned.

(** A bridge with a watcher on [cfg], and a machine that holds
    [cfg.yaml] but takes no new backups. *)
Definition watched_bridge : ConfigurationBridge.bridge :=
  {| ConfigurationBridge.observers := {["cfg" := 3]};
     ConfigurationBridge.config_cache := ∅;
     ConfigurationBridge.change_callbacks := {["cfg" := 7]} |}.

Definition old_data : Py.mapping := [("version", Py.py_int 1)].
Definition new_data : Py.mapping := [("version", Py.py_int 2)].

Definition no_backups
    : @ConfigurationBridge.filesystem ConfigurationBridge.Reference.libraries :=
  {| ConfigurationBridge.config_dir :=
       {["cfg.yaml" :=
           ConfigurationBridge.Reference.yaml_document (Py.py_dict old_data)]};
     ConfigurationBridge.backup_dir := ∅;
     ConfigurationBridge.read_only := ∅;
     ConfigurationBridge.can_mkdir := true;
     ConfigurationBridge.backups_writable := false |}.

(** The mapping of the round-trip property, and machines on which
    [profileA] is an INI file, or does not exist yet. *)
Definition profile : Py.mapping :=
  [("x", Py.py_int 1); ("y", Py.py_list [Py.py_int 1; Py.py_int 2])].

Definition ini_machine
    : @ConfigurationBridge.filesystem ConfigurationBridge.Reference.libraries :=
  {| ConfigurationBridge.config_dir :=
       {["profileA.ini" := ConfigurationBridge.Reference.ini_document []]};
     ConfigurationBridge.backup_dir := ∅;
     ConfigurationBridge.read_only := ∅;
     ConfigurationBridge.can_mkdir := true;
     ConfigurationBridge.backups_writable := true |}.

Definition empty_machine
    : @ConfigurationBridge.filesystem ConfigurationBridge.Reference.libraries :=
  {| ConfigurationBridge.config_dir := ∅;
     ConfigurationBridge.backup_dir := ∅;
     ConfigurationBridge.read_only := ∅;
     ConfigurationBridge.can_mkdir := true;
     ConfigurationBridge.backups_writable := true |}.

(** A mapping of one section whose values are strings already. *)
Definition cased : Py.mapping :=
  [("Server", Py.py_dict [("Host", Py.py_str "rf4game.com")])].

Definition timestamp : string := "20250101_120000".

(** A monitor that is connected, and the answers of a network on which
    the basic targets answer while both game servers are down. *)
Definition connected_monitor : ConnectionMonitor.monitor :=
  {| ConnectionMonitor.is_monitoring := true;
     ConnectionMonitor.check_interval := 5000;
     ConnectionMonitor.is_connected := true;
     ConnectionMonitor.last_check_time := 0;
     ConnectionMonitor.connection_history := [];
     ConnectionMonitor.status_callbacks := [] |}.

Definition internet_up
    : list ((string * Z) * ConnectionMonitor.socket_attempt) :=
  [(("google.com", 80%Z), ConnectionMonitor.connect_ex 0 20);
   (("8.8.8.8", 53%Z), ConnectionMonitor.connect_ex 0 30);
   (("1.1.1.1", 53%Z), ConnectionMonitor.connect_ex 10060 3000)].

Definition servers_down : list (string * ConnectionMonitor.server_attempt) :=
  [("rf4game.com",
    ConnectionMonitor.request_exception "timed out"
      ConnectionMonitor.fallback_error);
   ("russianfishing4.com", ConnectionMonitor.http_response 503 40)].

(** A machine that holds [cfg.yaml] with the new data and one backup
    with the old data. *)
Definition backed_up
    : @ConfigurationBridge.filesystem ConfigurationBridge.Reference.libraries :=
  {| ConfigurationBridge.config_dir :=
       {["cfg.yaml" :=
           ConfigurationBridge.Reference.yaml_document (Py.py_dict new_data)]};
     ConfigurationBridge.backup_dir :=
       {["cfg_20241231_235959.yaml" :=
           ConfigurationBridge.Reference.yaml_document (Py.py_dict old_data)]};
     ConfigurationBridge.read_only := ∅;
     ConfigurationBridge.can_mkdir := true;
     ConfigurationBridge.backups_writable := true |}.

End Examples.

(** * Properties *)

(** ** Slices and comparisons *)

Module PyFacts.

Lemma Qltb_lt x y : Py.Qltb x y = true <-> (x < y)%Q.
Proof.
  unfold Py.Qltb. rewrite negb_true_iff. split.
  - intros H. apply Qnot_le_lt. intros Hle.
    apply Qle_bool_iff in Hle. congruence.
  - intros H. destruct (Qle_bool y x) eqn:E; [|reflexivity].
    apply Qle_bool_iff in E. exfalso. exact (Qlt_not_le _ _ H E).
Qed.

Lemma Qltb_ge x y : Py.Qltb x y = false <-> (y <= x)%Q.
Proof.
  unfold Py.Qltb. rewrite negb_false_iff. apply Qle_bool_iff.
Qed.

Lemma last_items_zero {A} (l : list A) : Py.last_items 0 l = l.
Proof. reflexivity. Qed.

Lemma last_items_pos {A} (n : nat) (l : list A) :
  (0 < n)%nat ->
  Py.last_items (Z.of_nat n) l = drop (length l - n) l.
Proof.
  intros Hn. unfold Py.last_items, Py.slice_from.
  destruct (Z.ltb_spec (- Z.of_nat n) 0) as [_|H]; [|lia].
  f_equal. lia.
Qed.

Lemma last_items_all {A} (limit : Z) (l : list A) :
  (Z.of_nat (length l) <= limit)%Z -> Py.last_items limit l = l.
Proof.
  intros H. unfold Py.last_items, Py.slice_from.
  destruct (Z.ltb_spec (- limit) 0) as [Hneg|Hpos].
  - replace (Z.to_nat _) with 0%nat by lia. reflexivity.
  - assert (length l = 0%nat) as Hl by lia.
    destruct l; [|discriminate]. by rewrite drop_nil.
Qed.

Lemma keep_length {A} (n : nat) (l : list A) : length (Py.keep n l) = min n (length l).
Proof. unfold Py.keep. rewrite length_drop. lia. Qed.

Lemma keep_all {A} (n : nat) (l : list A) : length l <= n -> Py.keep n l = l.
Proof. intros H. unfold Py.keep. by replace (length l - n)%nat with 0%nat by lia. Qed.

(** Trimming early and trimming late leave the same items. *)
Lemma keep_app_keep {A} (n : nat) (l l' : list A) :
  Py.keep n (Py.keep n l ++ l') = Py.keep n (l ++ l').
Proof.
  destruct (decide (length l <= n)) as [Hle|Hgt].
  - by rewrite (keep_all n l).
  - unfold Py.keep at 2. set (k := (length l - n)%nat).
    unfold Py.keep. rewrite !length_app, length_drop.
    replace (length l - k + length l' - n)%nat with (length l') by lia.
    replace (length l + length l' - n)%nat with (k + length l')%nat by lia.
    rewrite <- drop_drop. rewrite (drop_app_le l l' k) by lia. reflexivity.
Qed.

Lemma keep_suffix {A} (n : nat) (l : list A) : Py.keep n l `suffix_of` l.
Proof. apply suffix_drop. Qed.

End PyFacts.

(** ** [ConnectionMonitor] *)

Module ConnectionMonitorFacts.
Import ConnectionMonitor.

(** Turns the boolean latency tests of the context into inequalities. *)
Ltac bands :=
  repeat match goal with
    | H : Py.Qltb _ _ = true |- _ => apply PyFacts.Qltb_lt in H
    | H : Py.Qltb _ _ = false |- _ => apply PyFacts.Qltb_ge in H
    end.

Lemma band_in_band (a : Q) : in_band a (band a).
Proof.
  unfold in_band, band.
  destruct (Py.Qltb a 50) eqn:H50; [|destruct (Py.Qltb a 100) eqn:H100;
    [|destruct (Py.Qltb a 200) eqn:H200; [|destruct (Py.Qltb a 500) eqn:H500]]];
  bands; repeat split; intros; try reflexivity; exfalso; lra.
Qed.

Lemma band_antitone (a1 a2 : Q) :
  (a1 <= a2)%Q -> rank (band a2) <= rank (band a1).
Proof.
  intros Hle. unfold band.
  destruct (Py.Qltb a1 50) eqn:?, (Py.Qltb a1 100) eqn:?,
           (Py.Qltb a1 200) eqn:?, (Py.Qltb a1 500) eqn:?,
           (Py.Qltb a2 50) eqn:?, (Py.Qltb a2 100) eqn:?,
           (Py.Qltb a2 200) eqn:?, (Py.Qltb a2 500) eqn:?;
    simpl; try lia; bands; exfalso; lra.
Qed.

(** The loop collects exactly the successful response times. *)
Lemma internet_loop_successes probes n times failed :
  exists failed',
    internet_loop probes n times failed
    = (n + length (successes probes), times ++ successes probes, failed').
Proof.
  revert n times failed.
  induction probes as [|[[host port] attempt] rest IH]; intros n times failed.
  - exists failed. simpl. by rewrite Nat.add_0_r, app_nil_r.
  - unfold successes. simpl. fold (successes rest).
    destruct attempt as [code t|msg]; [destruct (code =? 0)%Z|].
    + destruct (IH (S n) (times ++ [t]) failed) as [f' ->].
      exists f'. rewrite <- app_assoc. simpl. f_equal. f_equal. lia.
    + destruct (IH n times (failed ++ [host +:+ ":" +:+ pretty port]))
        as [f' ->].
      by exists f'.
    + destruct (IH n times
                  (failed ++ [host +:+ ":" +:+ pretty port +:+ " - " +:+ msg]))
        as [f' ->].
      by exists f'.
Qed.

Lemma internet_of_successes sockets :
  connected (test_internet_connectivity sockets) = Py.truthy (successes sockets)
  /\ avg_response_time (test_internet_connectivity sockets)
     = if Py.truthy (successes sockets)
       then Some (Qsum (successes sockets)
                  / inject_Z (Z.of_nat (length (successes sockets))))%Q
       else None.
Proof.
  unfold test_internet_connectivity.
  destruct (internet_loop_successes sockets 0 [] []) as [f' ->]. simpl.
  by destruct (successes sockets).
Qed.

(** C4: the quality tier is a function of reachability and average
    latency alone.  A check none of whose basic targets succeeded is
    [no_connection]; otherwise the check has an average latency and the
    tier is [excellent] below 50 ms, [good] below 100, [fair] below 200,
    [poor] below 500 and [very_poor] from there on.  Averages of 30, 80,
    150, 300 and 600 ms give the five tiers in that order, and a larger
    average never gives a better tier. *)
Theorem quality_follows_latency_bands :
  (forall sockets servers,
      let r := probe sockets servers in
      match successes sockets with
      | [] => assess_connection_quality r = no_connection
      | _ :: _ =>
          exists a, avg_response_time (internet r) = Some a
                    /\ in_band a (assess_connection_quality r)
      end)
  /\ (forall r, connected (internet r) = false ->
                assess_connection_quality r = no_connection)
  /\ (forall r a, connected (internet r) = true ->
                  avg_response_time (internet r) = Some a ->
                  in_band a (assess_connection_quality r))
  /\ (forall r1 r2 a1 a2,
        connected (internet r1) = true -> connected (internet r2) = true ->
        avg_response_time (internet r1) = Some a1 ->
        avg_response_time (internet r2) = Some a2 ->
        (a1 <= a2)%Q ->
        rank (assess_connection_quality r2) <= rank (assess_connection_quality r1))
  /\ map (fun a => assess_connection_quality (reachable_with a))
         [30%Q; 80%Q; 150%Q; 300%Q; 600%Q]
     = [excellent; good; fair; poor; very_poor].
Proof.
  split; [|split; [|split; [|split]]].
  - intros sockets servers r.
    destruct (internet_of_successes sockets) as [Hc Ha].
    unfold assess_connection_quality. subst r. simpl.
    rewrite Hc, Ha. destruct (successes sockets) as [|t ts]; [reflexivity|].
    simpl. eexists. split; [reflexivity|]. apply band_in_band.
  - intros r Hc. unfold assess_connection_quality. by rewrite Hc.
  - intros r a Hc Ha. unfold assess_connection_quality. rewrite Hc, Ha.
    simpl. apply band_in_band.
  - intros r1 r2 a1 a2 H1 H2 Ha1 Ha2 Hle. unfold assess_connection_quality.
    rewrite H1, H2, Ha1, Ha2. simpl. by apply band_antitone.
  - reflexivity.
Qed.

Lemma quality_follows_latency_bands_witness :
  assess_connection_quality
    (probe [(("google.com", 80%Z), connect_ex 0 30%Q);
            (("8.8.8.8", 53%Z), connect_ex 111 3000%Q);
            (("1.1.1.1", 53%Z), connect_ex 0 50%Q)] [])
  = excellent.
Proof.
  destruct quality_follows_latency_bands as (Hprobe & _ & Hband & _).
  destruct (Hprobe [(("google.com", 80%Z), connect_ex 0 30%Q);
                    (("8.8.8.8", 53%Z), connect_ex 111 3000%Q);
                    (("1.1.1.1", 53%Z), connect_ex 0 50%Q)] [])
    as (a & Ha & Hin).
  apply (proj1 Hin). vm_compute in Ha. injection Ha as <-. reflexivity.
Defined.

(** *** The sample history *)

Lemma update_connection_history_keeps m t r :
  connection_history (update_connection_history m t r)
  = Py.keep 100
      (connection_history m
       ++ [{| h_timestamp := t;
              h_connected := connected (internet r);
              h_quality := assess_connection_quality r;
              h_response_time := default 0%Q (avg_response_time (internet r)) |}]).
Proof.
  unfold update_connection_history, max_history. simpl.
  destruct (Nat.ltb_spec 100 (length (connection_history m ++
    [{| h_timestamp := t;
        h_connected := connected (internet r);
        h_quality := assess_connection_quality r;
        h_response_time := default 0%Q (avg_response_time (internet r)) |}])))
    as [Hlong|Hshort].
  - change 100%Z with (Z.of_nat 100). by rewrite PyFacts.last_items_pos by lia.
  - by rewrite PyFacts.keep_all.
Qed.

Lemma handle_connection_change_history m c r :
  connection_history (handle_connection_change m c r).1 = connection_history m.
Proof.
  unfold handle_connection_change.
  by destruct (c && negb (is_connected m)), (negb c && is_connected m).
Qed.

Lemma tick_history m i :
  connection_history (tick m i)
  = Py.keep 100 (connection_history m ++ [sample_of i]).
Proof.
  destruct i as [[t sockets] servers]. unfold tick, check_connection, sample_of.
  set (r := probe sockets servers).
  pose proof (handle_connection_change_history m (connected (internet r)) r) as Hh.
  destruct (negb (eqb (connected (internet r)) (is_connected m)));
    [destruct (handle_connection_change m (connected (internet r)) r) as [m1 sig]|];
    cbn [fst snd connection_history] in *;
    rewrite update_connection_history_keeps; [by rewrite Hh|done].
Qed.

Lemma run_history inputs : forall m,
  length (connection_history m) <= 100 ->
  connection_history (run m inputs)
  = Py.keep 100 (connection_history m ++ map sample_of inputs).
Proof.
  induction inputs as [|i rest IH]; intros m Hm.
  - simpl. rewrite app_nil_r. by rewrite PyFacts.keep_all.
  - change (run m (i :: rest)) with (run (tick m i) rest).
    rewrite IH.
    + rewrite tick_history, PyFacts.keep_app_keep, <- app_assoc. reflexivity.
    + rewrite tick_history, PyFacts.keep_length. lia.
Qed.

(** C8: the sample history is a queue of at most 100 entries.  After any
    number of ticks from the initial monitor it holds the samples of the
    last 100 ticks at most, in tick order, the older ones gone; a query
    with a limit of 100 or more returns all of them, and exactly 100
    once more than 100 ticks have run.  Whatever the monitor held
    before, one tick leaves at most 100 entries. *)
Theorem history_is_a_bounded_queue (inputs : list tick_input) (limit : Z) :
  (100 <= limit)%Z ->
  let m := run init inputs in
  let samples := map sample_of inputs in
  length (connection_history m) <= 100
  /\ connection_history m = drop (length inputs - 100) samples
  /\ get_connection_history m limit = drop (length inputs - 100) samples
  /\ (100 < length inputs -> length (get_connection_history m limit) = 100)
  /\ (forall m' i, length (connection_history (tick m' i)) <= 100).
Proof.
  intros Hlimit m samples.
  assert (connection_history m = drop (length inputs - 100) samples) as Hh.
  { subst m samples. rewrite run_history by (simpl; lia). simpl.
    unfold Py.keep. by rewrite length_map. }
  assert (length (connection_history m) <= 100) as Hlen.
  { rewrite Hh, length_drop. subst samples. rewrite length_map. lia. }
  assert (get_connection_history m limit = connection_history m) as Hget.
  { unfold get_connection_history.
    destruct (connection_history m) as [|e es] eqn:E; [reflexivity|].
    cbn [Py.truthy]. apply PyFacts.last_items_all. lia. }
  repeat split; [done|done|congruence| |].
  - intros Hmany. rewrite Hget, Hh, length_drop. subst samples.
    rewrite length_map. lia.
  - intros m' i. rewrite tick_history, PyFacts.keep_length. lia.
Qed.

Lemma history_is_a_bounded_queue_witness :
  length (get_connection_history
            (run init (replicate 130 (0%Q, [], []))) 150) = 100.
Proof.
  apply (history_is_a_bounded_queue (replicate 130 (0%Q, [], [])) 150).
  - lia.
  - rewrite length_replicate. lia.
Defined.

(** *** Losing the connection *)

(** The handler itself tells the two failure modes apart: called for a
    lost connection it gives [internet_disconnected] when basic
    connectivity failed and [game_servers_unreachable] when basic
    connectivity held but no game server was reachable. *)
Lemma handler_tells_failure_modes (m : monitor) (r : results) :
  is_connected m = true ->
  exists reason,
    (handle_connection_change m false r).2 = [connection_lost reason]
    /\ (reason = "internet_disconnected" <-> connected (internet r) = false)
    /\ (reason = "game_servers_unreachable" <->
          connected (internet r) = true
          /\ reachable_servers (game_servers r) = []).
Proof.
  intros Hconn. unfold handle_connection_change. rewrite Hconn. simpl.
  destruct (connected (internet r)) eqn:Ec; simpl.
  - destruct (reachable_servers (game_servers r)) as [|s ss] eqn:Er; simpl.
    + eexists. split; [reflexivity|]. split; [split; discriminate|].
      split; [done|reflexivity].
    + eexists. split; [reflexivity|]. split; [split; discriminate|].
      split; [discriminate|]. intros [_ ?]. discriminate.
  - eexists. split; [reflexivity|]. split; [done|].
    split; [discriminate|]. intros [? _]. discriminate.
Qed.

(** The transition signals of a tick, followed by the status signal and
    the callbacks. *)
Lemma tick_signals (m : monitor) (t : Q)
    (sockets : list ((string * Z) * socket_attempt))
    (servers : list (string * server_attempt)) :
  let now := Py.truthy (successes sockets) in
  exists info,
    (check_connection m t sockets servers).2
    = (if eqb now (is_connected m) then []
       else [if now
             then connection_established
                    (if Py.truthy (reachable_servers (test_game_servers servers))
                     then "game_servers" else "internet")
             else connection_lost "internet_disconnected"])
      ++ connection_status_changed
           (if now then "connected" else "disconnected") info
         :: map (fun cb => status_callback cb now info) (status_callbacks m)
    /\ is_connected (check_connection m t sockets servers).1 = now.
Proof.
  intros now.
  destruct (internet_of_successes sockets) as [Hc _]. fold now in Hc.
  unfold check_connection.
  assert (connected (internet (probe sockets servers)) = now) as Hp by exact Hc.
  rewrite Hp. unfold handle_connection_change.
  destruct now eqn:Hnow, (is_connected m) eqn:Hm; simpl; rewrite ?Hm; simpl;
    rewrite ?Hp, ?Hc; simpl; rewrite ?Hm; eexists; split; reflexivity.
Qed.

(** C6: the reason a tick gives for a lost connection.  The handler
    can tell the two failure modes apart, but a tick calls it for a
    lost connection only when no basic target succeeded.  So a tick of
    a connected monitor emits [connection_lost] exactly when no basic
    target succeeded, once, as its first signal and with the reason
    [internet_disconnected]; while a basic target succeeds it emits no
    [connection_lost] and the monitor stays connected, also when no
    game server is reachable: no tick emits the reason
    [game_servers_unreachable]. *)
Theorem game_servers_unreachable_is_never_reported (m : monitor) (t : Q)
    (sockets : list ((string * Z) * socket_attempt))
    (servers : list (string * server_attempt)) :
  let out := check_connection m t sockets servers in
  (forall reason,
      connection_lost reason ∈ out.2 ->
      reason = "internet_disconnected"
      /\ is_connected m = true /\ successes sockets = [])
  /\ (is_connected m = true -> successes sockets = [] ->
      exists rest,
        out.2 = connection_lost "internet_disconnected" :: rest
        /\ (forall reason, connection_lost reason ∉ rest)
        /\ is_connected out.1 = false)
  /\ (is_connected m = true -> successes sockets <> [] ->
      is_connected out.1 = true
      /\ (forall reason, connection_lost reason ∉ out.2)
      /\ (reachable_servers (test_game_servers servers) = [] ->
          exists reason,
            (handle_connection_change m false (probe sockets servers)).2
            = [connection_lost reason]
            /\ reason = "game_servers_unreachable")).
Proof.
  intros out. subst out.
  destruct (tick_signals m t sockets servers) as (info & Hsignals & Hafter).
  assert (forall (reason : string) (now : bool),
             connection_lost reason
               ∉ connection_status_changed
                   (if now then "connected" else "disconnected") info
                 :: map (fun cb => status_callback cb now info)
                      (status_callbacks m)) as Hrest.
  { intros reason now Hin. apply elem_of_cons in Hin as [Hin|Hin]; [done|].
    apply list_elem_of_fmap in Hin as (cb & Hcb & _). done. }
  split; [|split].
  - intros reason Hin. rewrite Hsignals in Hin.
    apply elem_of_app in Hin as [Hin|Hin]; [|by apply Hrest in Hin].
    destruct (successes sockets) as [|s ss], (is_connected m);
      simpl in Hin; try by apply elem_of_nil in Hin.
    + apply list_elem_of_singleton in Hin. by injection Hin as ->.
    + apply list_elem_of_singleton in Hin. done.
  - intros Hconn Hnone. rewrite Hnone, Hconn in Hsignals.
    rewrite Hnone in Hafter. simpl in Hsignals, Hafter.
    eexists. split; [exact Hsignals|]. split; [|exact Hafter].
    intros reason. apply (Hrest reason false).
  - intros Hconn Hsome.
    destruct (successes sockets) as [|s ss] eqn:Hs; [done|].
    rewrite Hconn in Hsignals. simpl in Hsignals, Hafter.
    split; [exact Hafter|]. split.
    + intros reason. rewrite Hsignals. apply (Hrest reason true).
    + intros Hservers.
      destruct (handler_tells_failure_modes m (probe sockets servers) Hconn)
        as (reason & Hhandler & _ & Hgame).
      exists reason. split; [exact Hhandler|]. apply Hgame.
      split; [|exact Hservers].
      destruct (internet_of_successes sockets) as [Hc _].
      simpl. rewrite Hc, Hs. reflexivity.
Qed.

(** The tick on which C6 fails: a connected monitor, basic targets
    that answer and both game servers down.  The handler would report
    [game_servers_unreachable]; the tick emits the status signal alone
    and leaves the monitor connected. *)
Lemma unreachable_game_servers_emit_no_lost :
  let r := probe Examples.internet_up Examples.servers_down in
  let out :=
    check_connection Examples.connected_monitor 10
      Examples.internet_up Examples.servers_down in
  connected (internet r) = true
  /\ reachable_servers (game_servers r) = []
  /\ (handle_connection_change Examples.connected_monitor false r).2
     = [connection_lost "game_servers_unreachable"]
  /\ is_connected out.1 = true
  /\ out.2
     = [connection_status_changed "connected"
          {| s_connected := true;
             s_quality := assess_connection_quality r;
             s_last_check := 10;
             s_details := r |}].
Proof. repeat split. Qed.

Lemma game_servers_unreachable_is_never_reported_witness :
  is_connected
    (check_connection Examples.connected_monitor 10
       Examples.internet_up Examples.servers_down).1 = true
  /\ connection_lost "game_servers_unreachable"
       ∉ (check_connection Examples.connected_monitor 10
            Examples.internet_up Examples.servers_down).2.
Proof.
  destruct (game_servers_unreachable_is_never_reported
              Examples.connected_monitor 10 Examples.internet_up
              Examples.servers_down) as (_ & _ & Hup).
  destruct (Hup eq_refl ltac:(discriminate)) as (Hstays & Hnone & _).
  split; [exact Hstays|apply Hnone].
Defined.

End ConnectionMonitorFacts.

(** ** [ProcessTracker] *)

Module ProcessTrackerFacts.
Import ProcessTracker.

Lemma callbacks_are_not_lifecycle status_str info (callbacks : list nat) :
  filter is_lifecycle
    (map (fun cb => status_callback cb status_str info) callbacks) = [].
Proof. induction callbacks as [|cb rest IH]; [done|]. simpl. exact IH. Qed.

Lemma refresh_lifecycle t proc p info :
  filter is_lifecycle
    (update_process_status (with_current t (Some p) (Some proc) info)).2
  = lost_while_refreshing proc p.
Proof.
  unfold update_process_status, lost_while_refreshing. simpl.
  destruct (is_running proc); [|done].
  destruct (status proc) as [s|[]]; simpl; try done.
  apply callbacks_are_not_lifecycle.
Qed.

(** C3, as the code has it: when the first match of a scan has a pid [B]
    other than the tracked pid [A], the tick emits [process_lost A] and
    then [process_found B name_B] before anything else.  The only
    lifecycle signal that can follow in the same tick is
    [process_lost B], emitted when the status query of the new process
    raises [NoSuchProcess] or [AccessDenied]. *)
Theorem pid_change_emits_lost_then_found
    (t : tracker) (proc : process) (A B : Z) (name_B : string)
    (others : list (process * (Z * string))) :
  current_pid t = Some A ->
  A <> B ->
  exists later,
    (handle_found_processes t ((proc, (B, name_B)) :: others)).2
    = process_lost A :: process_found B name_B :: later
    /\ filter is_lifecycle later = lost_while_refreshing proc B.
Proof.
  intros Hcur Hne. unfold handle_found_processes. rewrite Hcur.
  rewrite bool_decide_eq_false_2 by congruence.
  pose proof (refresh_lifecycle t proc B (get_detailed_process_info proc)) as Hr.
  destruct (update_process_status
              (with_current t (Some B) (Some proc) (get_detailed_process_info proc)))
    as [t2 updated].
  simpl in *. by exists updated.
Qed.

Lemma pid_change_emits_lost_then_found_witness :
  exists later,
    (handle_found_processes Examples.tracking_first
       [(Examples.vanishing_process, (2%Z, "RF4.exe"))]).2
    = process_lost 1 :: process_found 2 "RF4.exe" :: later
    /\ filter is_lifecycle later = [process_lost 2].
Proof.
  apply (pid_change_emits_lost_then_found Examples.tracking_first
           Examples.vanishing_process 1 2 "RF4.exe" []).
  - reflexivity.
  - lia.
Defined.

(** C3 does not hold as worded: the process found in a scan can
    be gone when its status is asked, and the tick then emits a second
    [process_lost]. *)
Lemma pid_change_can_emit_a_second_lost :
  current_pid Examples.tracking_first = Some 1%Z
  /\ filter is_lifecycle
       (scan_processes Examples.tracking_first Examples.second_scan).2
     = [process_lost 1; process_found 2 "RF4.exe"; process_lost 2]
  /\ filter is_lifecycle
       (scan_processes Examples.tracking_first Examples.second_scan).2
     <> [process_lost 1; process_found 2 "RF4.exe"].
Proof. split; [|split]; [reflexivity|reflexivity|discriminate]. Qed.

End ProcessTrackerFacts.

(** ** [GameMonitor] *)

Module GameMonitorFacts.
Import GameMonitor.

Lemma determine_overall_table running active :
  determine_overall running active = overall_table running active.
Proof. by destruct running, active. Qed.

Lemma log_status_data_last history info :
  last (log_status_data history info) = Some info.
Proof.
  unfold log_status_data, max_history.
  destruct (Nat.ltb_spec 1000 (length (history ++ [info]))) as [Hlong|Hshort].
  - change 1000%Z with (Z.of_nat 1000).
    rewrite PyFacts.last_items_pos by lia.
    rewrite length_app in *. simpl in *.
    rewrite drop_app_le by lia. apply last_snoc.
  - apply last_snoc.
Qed.

(** C2: the overall status that [_update_status] computes, emits and
    stores in its snapshot is the entry of the table for the two flags:
    (true, true) gives running_connected, (true, false)
    running_disconnected, (false, true) not_running_connected and
    (false, false) not_running_disconnected. *)
Theorem overall_status_matches_table (g : monitor) (now : Q) :
  exists info,
    (update_status g now).2
    = [game_status_changed
         (overall_table (game_running g) (connection_active g)) info]
    /\ overall_status info = overall_table (game_running g) (connection_active g)
    /\ si_game_running info = game_running g
    /\ si_connection_active info = connection_active g
    /\ status_history (update_status g now).1
       = (if log_data g then log_status_data (status_history g) info
          else status_history g)
    /\ (if log_data g
        then last (status_history (update_status g now).1) = Some info
        else True)
    /\ map (fun rc => determine_overall rc.1 rc.2)
           [(true, true); (true, false); (false, true); (false, false)]
       = ["running_connected"; "running_disconnected";
          "not_running_connected"; "not_running_disconnected"].
Proof.
  unfold update_status. simpl. eexists. rewrite determine_overall_table.
  split; [reflexivity|]. simpl.
  repeat split; try reflexivity.
  destruct (log_data g); [|done]. apply log_status_data_last.
Qed.

End GameMonitorFacts.

(** ** [EventManager] *)

Module EventManagerFacts.
Import EventManager.

Lemma notify_invokes_each_once run e (entries : list callback_info) :
  filter is_invocation
    (flat_map
       (fun subscriber_info =>
          invoked (callback subscriber_info) e ::
          match run (callback subscriber_info) e with
          | returned => []
          | raised msg => [logged_error (callback subscriber_info) msg]
          end)
       entries)
  = map (fun s => invoked (callback s) e) entries.
Proof.
  induction entries as [|s rest IH]; [done|].
  simpl. destruct (run (callback s) e); simpl; by rewrite <- IH.
Qed.

Lemma notify_records_nothing run e (entries : list callback_info) :
  filter is_record
    (flat_map
       (fun subscriber_info =>
          invoked (callback subscriber_info) e ::
          match run (callback subscriber_info) e with
          | returned => []
          | raised msg => [logged_error (callback subscriber_info) msg]
          end)
       entries)
  = [].
Proof.
  induction entries as [|s rest IH]; [done|].
  simpl. destruct (run (callback s) e); simpl; exact IH.
Qed.

Lemma appended_event_is_last (history : list event) e :
  last (if (max_history <? length (history ++ [e]))%nat
        then drop 1 (history ++ [e]) else history ++ [e]) = Some e.
Proof.
  destruct (Nat.ltb_spec max_history (length (history ++ [e]))) as [Hlong|_].
  - rewrite length_app in Hlong. unfold max_history in Hlong. simpl in Hlong.
    rewrite drop_app_le by lia. apply last_snoc.
  - apply last_snoc.
Qed.

(** C5: a publish first appends the event to the history and then
    calls every subscriber entry of the event name exactly once, in
    subscriber order, whatever the earlier callbacks did: a callback
    that raises is logged and the next one is still called.  The event
    is the last entry of the history afterwards. *)
Theorem publish_isolates_subscribers (m : manager)
    (run : nat -> event -> outcome) (event_name : string)
    (payload : Py.value) (src : option string) (now1 now2 : Q) :
  let e := {| name := event_name; data := payload; timestamp := now1;
              source := src; event_id := (event_name, now2) |} in
  exists notified,
    (publish m run event_name payload src now1 now2).2 = recorded e :: notified
    /\ filter is_invocation notified
       = map (fun s => invoked (callback s) e)
             (default [] (subscribers m !! event_name))
    /\ filter is_record notified = []
    /\ last (event_history (publish m run event_name payload src now1 now2).1)
       = Some e
    /\ subscribers (publish m run event_name payload src now1 now2).1
       = subscribers m.
Proof.
  intros e. unfold publish. fold e. simpl. eexists.
  split; [reflexivity|]. unfold notify_subscribers. simpl.
  split; [apply notify_invokes_each_once|].
  split; [apply notify_records_nothing|].
  split; [apply appended_event_is_last|reflexivity].
Qed.

(** Two subscribers, the first of which raises: both are called, once
    each, after the event was recorded. *)
Lemma publish_isolates_subscribers_witness :
  exists e notified,
    (publish Examples.two_subscribers Examples.first_raises
       "tick" Py.py_none None 1 2).2 = recorded e :: notified
    /\ filter is_invocation notified = [invoked 1 e; invoked 2 e].
Proof.
  destruct (publish_isolates_subscribers Examples.two_subscribers
              Examples.first_raises "tick" Py.py_none None 1 2)
    as (notified & Hsteps & Hcalls & _).
  eexists. exists notified. split; [exact Hsteps|]. exact Hcalls.
Defined.

End EventManagerFacts.

(** ** The history getters *)

Module HistoryFacts.

(** C10: with [limit = 0] the three history getters return the whole
    stored history (for the event history, the whole history of the
    requested name), because [l[-0:]] is [l[0:]]. *)
Theorem zero_limit_returns_whole_history :
  (forall m : ConnectionMonitor.monitor,
      ConnectionMonitor.get_connection_history m 0
      = ConnectionMonitor.connection_history m)
  /\ (forall g : GameMonitor.monitor,
        GameMonitor.get_status_history g 0 = GameMonitor.status_history g)
  /\ (forall m : EventManager.manager,
        EventManager.get_event_history m None 0 = EventManager.event_history m)
  /\ (forall (m : EventManager.manager) (n : string),
        n <> EmptyString ->
        EventManager.get_event_history m (Some n) 0
        = filter (fun e => EventManager.name e = n) (EventManager.event_history m)).
Proof.
  repeat split.
  - intros m. unfold ConnectionMonitor.get_connection_history.
    by destruct (ConnectionMonitor.connection_history m).
  - intros g. unfold GameMonitor.get_status_history.
    by destruct (GameMonitor.status_history g).
  - intros m n Hn. unfold EventManager.get_event_history.
    destruct (String.eqb_spec n EmptyString); [done|reflexivity].
Qed.

Lemma zero_limit_returns_whole_history_witness :
  EventManager.get_event_history
    (EventManager.publish EventManager.init (fun _ _ => EventManager.returned)
       "tick" Py.py_none None 1 2).1 (Some "tick") 0
  = filter (fun e => EventManager.name e = "tick")
      (EventManager.event_history
         (EventManager.publish EventManager.init (fun _ _ => EventManager.returned)
            "tick" Py.py_none None 1 2).1).
Proof.
  apply (proj2 (proj2 (proj2 zero_limit_returns_whole_history))).
  discriminate.
Defined.

End HistoryFacts.

(** ** [ServiceRegistry] *)

Module ServiceRegistryFacts.
Import ServiceRegistry.

(** A name with a cached instance is served from the cache. *)
Lemma get_many_cached r name obj n :
  singletons r !! name = Some (Some obj) ->
  get_many r name n = (r, [], replicate n (service (Some obj))).
Proof.
  intros Hs. induction n as [|k IH]; [done|].
  simpl. unfold get_service. rewrite Hs, IH. reflexivity.
Qed.

(** What [n] lookups return when each of them calls [f] anew, the
    first with the fresh identity [next]. *)
Lemma results_of_seq (next k : nat) :
  service (Some next)
  :: map (fun i => service (Some (S next + i))) (seq 0 k)
  = map (fun i => service (Some (next + i))) (seq 0 (S k)).
Proof.
  cbn [seq map]. f_equal; [do 2 f_equal; lia|].
  rewrite <- (fmap_S_seq 0 k), <- list_fmap_compose.
  apply list_fmap_ext. intros _ i _. simpl. do 2 f_equal. lia.
Qed.

(** Without an entry in the singleton table every lookup calls the
    factory and hands on what that call gave. *)
Lemma get_many_uncached name f n : forall r,
  singletons r !! name = None ->
  services r !! name = None ->
  factories r !! name = Some f ->
  (get_many r name n).1.2 = replicate n (factory_called name)
  /\ singletons (get_many r name n).1.1 = singletons r
  /\ (get_many r name n).2
     = match f with
       | constructs => map (fun i => service (Some (fresh r + i))) (seq 0 n)
       | yields obj => replicate n (service obj)
       | fails msg =>
           replicate n
             (service_exception name ("Failed to get service: " +:+ msg))
       | fails_in_service service_name msg =>
           replicate n (service_exception service_name msg)
       end.
Proof.
  induction n as [|k IH]; intros r Hs Hc Hf; [by destruct f|].
  cbn [get_many]. unfold get_service. rewrite Hs, Hc, Hf.
  destruct f as [|obj|msg|service_name msg]; cbn [invoke handled].
  - destruct (IH (with_fresh r (S (fresh r))) Hs Hc Hf) as (IH1 & IH2 & IH3).
    destruct (get_many (with_fresh r (S (fresh r))) name k) as [[r2 calls2] rest].
    cbn in IH1, IH2, IH3 |- *. rewrite IH1, IH2, IH3.
    repeat split. apply (results_of_seq (fresh r) k).
  - destruct (IH (with_fresh r (fresh r)) Hs Hc Hf) as (IH1 & IH2 & IH3).
    destruct (get_many (with_fresh r (fresh r)) name k) as [[r2 calls2] rest].
    cbn in IH1, IH2, IH3 |- *. by rewrite IH1, IH2, IH3.
  - destruct (IH (with_fresh r (fresh r)) Hs Hc Hf) as (IH1 & IH2 & IH3).
    destruct (get_many (with_fresh r (fresh r)) name k) as [[r2 calls2] rest].
    cbn in IH1, IH2, IH3 |- *. by rewrite IH1, IH2, IH3.
  - destruct (IH (with_fresh r (fresh r)) Hs Hc Hf) as (IH1 & IH2 & IH3).
    destruct (get_many (with_fresh r (fresh r)) name k) as [[r2 calls2] rest].
    cbn in IH1, IH2, IH3 |- *. by rewrite IH1, IH2, IH3.
Qed.

(** C7, as the code has it: a factory registered under a name that has
    no entry in the singleton table (and no class) is called on every
    [get_service], and nothing is cached: n lookups are n calls, and
    each lookup returns what its own call of the factory gave (a new
    object each time for a factory that builds one, the factory's
    exception for one that raises).  The result is cached only when the
    name already holds a [None] placeholder in the singleton table: then
    a factory that builds an object is called by the first lookup alone,
    and every lookup returns that object. *)
Theorem factory_is_called_on_every_lookup
    (r0 : registry) (name : string) (f : callable) (n : nat) :
  services r0 !! name = None ->
  let r := register_factory r0 name f in
  (singletons r0 !! name = None ->
     (get_many r name n).1.2 = replicate n (factory_called name)
     /\ singletons (get_many r name n).1.1 = singletons r0
     /\ length (get_many r name n).2 = n
     /\ (get_many r name n).2
        = match f with
          | constructs => map (fun i => service (Some (fresh r0 + i))) (seq 0 n)
          | yields obj => replicate n (service obj)
          | fails msg =>
              replicate n
                (service_exception name ("Failed to get service: " +:+ msg))
          | fails_in_service service_name msg =>
              replicate n (service_exception service_name msg)
          end)
  /\ (singletons r0 !! name = Some None -> f = constructs ->
       (get_many r name (S n)).1.2 = [factory_called name]
       /\ (get_many r name (S n)).2
          = replicate (S n) (service (Some (fresh r0)))).
Proof.
  intros Hc r. split.
  - intros Hs.
    destruct (get_many_uncached name f n r) as (Hcalls & Hkept & Hres);
      [subst r; simpl; done|subst r; simpl; done
      |subst r; simpl; apply lookup_insert_eq|].
    split; [exact Hcalls|]. split; [exact Hkept|]. split; [|exact Hres].
    rewrite Hres. destruct f; by rewrite ?length_map, ?length_seq, ?length_replicate.
  - intros Hs ->. simpl. unfold get_service. subst r. simpl.
    rewrite Hs, Hc, lookup_insert_eq. simpl.
    rewrite (get_many_cached _ name (fresh r0) n)
      by (simpl; apply lookup_insert_eq).
    done.
Qed.

Lemma factory_is_called_on_every_lookup_witness :
  (get_many (register_factory init "svc" constructs) "svc" 3).1.2
  = [factory_called "svc"; factory_called "svc"; factory_called "svc"]
  /\ (get_many (register_factory init "svc" constructs) "svc" 3).2
     = [service (Some 0); service (Some 1); service (Some 2)].
Proof.
  destruct (factory_is_called_on_every_lookup init "svc" constructs 3
              (lookup_empty _)) as [Hevery _].
  destruct (Hevery (lookup_empty _)) as (Hcalls & _ & _ & Hres).
  split; [exact Hcalls|exact Hres].
Defined.

(** C7 does not hold as worded: two lookups of a name registered
    with [register_factory] call the factory twice and return two
    different objects. *)
Lemma factory_is_not_a_singleton :
  get_many (register_factory init "svc" constructs) "svc" 2
  = (with_fresh (register_factory init "svc" constructs) 2,
     [factory_called "svc"; factory_called "svc"],
     [service (Some 0); service (Some 1)])
  /\ ~ (length (get_many (register_factory init "svc" constructs) "svc" 2).1.2 <= 1)
  /\ service (Some 0) <> service (Some 1).
Proof.
  split; [reflexivity|]. split; [vm_compute; lia|discriminate].
Qed.

End ServiceRegistryFacts.

(** ** [ConfigurationBridge] *)

Module ConfigurationBridgeFacts.
Import ConfigurationBridge.

Section Any_libraries.
Context `{Libraries}.

Lemma file_name_inj config_name ext1 ext2 :
  file_name config_name ext1 = file_name config_name ext2 -> ext1 = ext2.
Proof.
  unfold file_name. induction config_name as [|c rest IH]; simpl; [done|].
  intros [= Heq]. by apply IH.
Qed.

Lemma create_backup_config_dir fs config_name ext timestamp :
  config_dir (create_backup fs config_name ext timestamp).1 = config_dir fs.
Proof.
  unfold create_backup.
  destruct (config_dir fs !! file_name config_name ext); [|done].
  by destruct (backups_writable fs).
Qed.

Lemma create_backup_read_only fs config_name ext timestamp :
  read_only (create_backup fs config_name ext timestamp).1 = read_only fs.
Proof.
  unfold create_backup.
  destruct (config_dir fs !! file_name config_name ext); [|done].
  by destruct (backups_writable fs).
Qed.

Lemma failed_backup_changes_nothing fs config_name ext timestamp :
  (create_backup fs config_name ext timestamp).2 = false ->
  (create_backup fs config_name ext timestamp).1 = fs.
Proof.
  unfold create_backup.
  destruct (config_dir fs !! file_name config_name ext); [|done].
  by destruct (backups_writable fs).
Qed.

(** C1, as the code has it: the result of [_create_backup] is not
    looked at.  When the backup of an existing target fails,
    [write_config] does what it does without a backup: if the file
    can be written it is overwritten, the cache is refreshed, the
    watcher is notified and the call returns [True]. *)
Theorem failed_backup_is_ignored (b : bridge) (fs : filesystem)
    (config_name ext : string) (config_data : Py.mapping) (timestamp : string) :
  find_config_file fs config_name = Some ext ->
  (create_backup fs config_name ext timestamp).2 = false ->
  write_config b fs config_name config_data true timestamp
  = write_config b fs config_name config_data false timestamp
  /\ (forall fs2,
        write_config_file fs config_name ext config_data = (fs2, true) ->
        write_config b fs config_name config_data true timestamp
        = (with_cache b
             (<[config_name := Py.py_dict config_data]> (config_cache b)),
           fs2,
           notify_config_change b config_name config_data,
           true)).
Proof.
  intros Hfind Hfail.
  assert (write_config b fs config_name config_data true timestamp
          = write_config b fs config_name config_data false timestamp) as Heq.
  { unfold write_config, target_file. rewrite Hfind. simpl.
    rewrite (failed_backup_changes_nothing _ _ _ _ Hfail).
    by destruct (exists_ fs (file_name config_name ext)). }
  split; [exact Heq|].
  intros fs2 Hwrite. rewrite Heq.
  unfold write_config, target_file. rewrite Hfind. simpl.
  by rewrite Hwrite.
Qed.

End Any_libraries.

Lemma failed_backup_is_ignored_witness :
  write_config (H := Reference.libraries) Examples.watched_bridge
    Examples.no_backups "cfg" Examples.new_data true Examples.timestamp
  = write_config (H := Reference.libraries) Examples.watched_bridge
      Examples.no_backups "cfg" Examples.new_data false Examples.timestamp.
Proof.
  apply (proj1 (failed_backup_is_ignored (H := Reference.libraries)
                  Examples.watched_bridge Examples.no_backups "cfg" ".yaml"
                  Examples.new_data Examples.timestamp eq_refl eq_refl)).
Defined.

(** C1 does not hold as worded: the backup of [cfg.yaml] cannot
    be made, and the write goes ahead all the same: the file and the
    cache hold the new data, the watcher is called and the call
    returns [True]. *)
Lemma write_proceeds_without_backup :
  let fs := Examples.no_backups in
  let outcome :=
    write_config (H := Reference.libraries) Examples.watched_bridge fs
      "cfg" Examples.new_data true Examples.timestamp in
  exists_ fs "cfg.yaml" = true
  /\ create_backup fs "cfg" ".yaml" Examples.timestamp = (fs, false)
  /\ outcome.2 = true
  /\ config_dir outcome.1.1.2 !! "cfg.yaml"
     = Some (Reference.yaml_document (Py.py_dict Examples.new_data))
  /\ config_dir outcome.1.1.2 !! "cfg.yaml" <> config_dir fs !! "cfg.yaml"
  /\ backup_dir outcome.1.1.2 = ∅
  /\ config_cache outcome.1.1.1 !! "cfg" = Some (Py.py_dict Examples.new_data)
  /\ config_cache outcome.1.1.1 <> config_cache Examples.watched_bridge
  /\ outcome.1.2 = [change_callback 7 "cfg" Examples.new_data].
Proof.
  repeat split; try reflexivity.
  - vm_compute. discriminate.
  - intros Heq.
    assert (config_cache (write_config (H := Reference.libraries)
              Examples.watched_bridge Examples.no_backups "cfg"
              Examples.new_data true Examples.timestamp).1.1.1 !! "cfg"
            = config_cache Examples.watched_bridge !! "cfg") as Hl
      by (by rewrite Heq).
    vm_compute in Hl. discriminate.
Qed.

(** *** Writing, then reading *)

Section Round_trip.
Context `{Libraries}.

Lemma exists_put fs p t q :
  exists_ (put fs p t) q = bool_decide (p = q) || exists_ fs q.
Proof.
  unfold exists_, put. simpl. destruct (decide (p = q)) as [->|Hne].
  - rewrite lookup_insert_eq.
    rewrite (bool_decide_eq_true_2 (q = q)) by done.
    by rewrite bool_decide_eq_true_2 by eauto.
  - rewrite lookup_insert_ne by done.
    by rewrite (bool_decide_eq_false_2 (p = q)).
Qed.

Lemma find_put_found (P P' : string -> bool) ext (l : list string) :
  (forall x, P' x = bool_decide (ext = x) || P x) ->
  List.find P l = Some ext -> List.find P' l = Some ext.
Proof.
  intros HP'. induction l as [|a rest IH]; simpl; [discriminate|].
  rewrite HP'. destruct (P a).
  - intros [= ->]. by rewrite orb_true_r.
  - destruct (decide (ext = a)) as [->|Hne].
    + by rewrite bool_decide_eq_true_2.
    + rewrite bool_decide_eq_false_2 by done. exact IH.
Qed.

(** After the write the target is the file the bridge finds. *)
Lemma find_after_write fs fs' config_name ext t :
  target_file fs config_name = Some ext ->
  config_dir fs' = config_dir fs ->
  find_config_file (put fs' (file_name config_name ext) t) config_name = Some ext.
Proof.
  intros Htarget Hdir.
  assert (forall x,
             exists_ (put fs' (file_name config_name ext) t) (file_name config_name x)
             = bool_decide (ext = x) || exists_ fs (file_name config_name x)) as Hput.
  { intros x. rewrite exists_put. unfold exists_. rewrite Hdir. f_equal.
    apply bool_decide_ext. split; [apply file_name_inj|by intros ->]. }
  unfold target_file in Htarget. unfold find_config_file.
  destruct (find_config_file fs config_name) as [found|] eqn:Hfind.
  - injection Htarget as ->.
    by apply (find_put_found (fun x => exists_ fs (file_name config_name x))).
  - unfold create_config_file in Htarget.
    destruct (can_mkdir fs); [|discriminate]. injection Htarget as <-.
    unfold extensions. simpl. rewrite Hput.
    by rewrite bool_decide_eq_true_2.
Qed.

(** C9, as the code has it: when [write_config] returns [True] and
    the library of the target's format gives back the mapping it
    serialized, [read_config] without the cache returns the mapping
    that was written. *)
Theorem write_then_read (b : bridge) (fs : filesystem)
    (config_name ext : string) (config_data : Py.mapping) (backup : bool)
    (timestamp : string) (b1 : bridge) (fs1 : filesystem)
    (notes : list notification) :
  target_file fs config_name = Some ext ->
  reloads (Py.lower (suffix config_name ext)) config_data ->
  write_config b fs config_name config_data backup timestamp
  = (b1, fs1, notes, true) ->
  (read_config b1 fs1 config_name false).2 = Some (Py.py_dict config_data).
Proof.
  intros Htarget Hreloads Hwrite.
  unfold write_config in Hwrite. rewrite Htarget in Hwrite.
  remember (if backup && exists_ fs (file_name config_name ext)
            then (create_backup fs config_name ext timestamp).1
            else fs) as fsb eqn:Hfsb.
  assert (config_dir fsb = config_dir fs) as Hdir.
  { subst fsb. destruct (backup && exists_ fs (file_name config_name ext));
      [apply create_backup_config_dir|done]. }
  destruct (write_config_file fsb config_name ext config_data)
    as [fs2 ok] eqn:Hfile.
  destruct ok; [|discriminate]. injection Hwrite as <- <- <-.
  unfold read_config. simpl.
  unfold write_config_file in Hfile. unfold reloads in Hreloads.
  unfold read_config_file.
  remember (Py.lower (suffix config_name ext)) as extension eqn:Hext.
  destruct (bool_decide (file_name config_name ext ∈ read_only fsb));
    [discriminate|].
  destruct (bool_decide (extension ∈ [".yaml"; ".yml"])) eqn:Eyaml;
    [|destruct (String.eqb extension ".json") eqn:Ejson;
      [|destruct (bool_decide (extension ∈ [".ini"; ".cfg"])) eqn:Eini]].
  - destruct Hreloads as (t & Hdump & Hload). rewrite Hdump in Hfile.
    injection Hfile as <-.
    rewrite (find_after_write fs fsb) by done. rewrite <- Hext.
    simpl. rewrite lookup_insert_eq, Eyaml, Hload. simpl.
    by destruct config_data.
  - destruct Hreloads as (t & Hdump & Hload). rewrite Hdump in Hfile.
    injection Hfile as <-.
    rewrite (find_after_write fs fsb) by done. rewrite <- Hext.
    simpl. rewrite lookup_insert_eq, Eyaml, Ejson, Hload. simpl.
    by destruct config_data.
  - destruct Hreloads as (config & config' & Hfill & Hread & Hsections).
    rewrite Hfill in Hfile. injection Hfile as <-.
    rewrite (find_after_write fs fsb) by done. rewrite <- Hext.
    simpl. rewrite lookup_insert_eq, Eyaml, Ejson, Eini, Hread. simpl.
    by rewrite Hsections.
  - done.
Qed.

End Round_trip.

(** The profile, written to a new YAML file and read back. *)
Lemma write_then_read_witness :
  (read_config (H := Reference.libraries)
     (with_cache Examples.watched_bridge
        (<["profileA" := Py.py_dict Examples.profile]>
           (config_cache Examples.watched_bridge)))
     (put Examples.empty_machine "profileA.yaml"
        (Reference.yaml_document (Py.py_dict Examples.profile)))
     "profileA" false).2
  = Some (Py.py_dict Examples.profile).
Proof.
  apply (write_then_read (H := Reference.libraries) Examples.watched_bridge
           Examples.empty_machine "profileA" ".yaml" Examples.profile true
           Examples.timestamp _ _ []).
  - reflexivity.
  - vm_compute. eexists. split; reflexivity.
  - reflexivity.
Defined.

(** C9 does not hold as worded on an INI file.  The profile of
    the specification has top-level values that are not mappings:
    [write_config] returns [False], the file is left empty and reads
    back as the empty mapping.  A mapping of sections whose values are
    strings already is written, but comes back with its option names in
    lower case. *)
Lemma ini_does_not_round_trip :
  let written :=
    write_config (H := Reference.libraries) Examples.watched_bridge
      Examples.ini_machine "profileA" Examples.profile true Examples.timestamp in
  let cased :=
    write_config (H := Reference.libraries) Examples.watched_bridge
      Examples.ini_machine "profileA" Examples.cased true Examples.timestamp in
  written.2 = false
  /\ config_dir written.1.1.2 !! "profileA.ini" = Some Reference.blank
  /\ (read_config written.1.1.1 written.1.1.2 "profileA" false).2
     = Some (Py.py_dict [])
  /\ (read_config written.1.1.1 written.1.1.2 "profileA" false).2
     <> Some (Py.py_dict Examples.profile)
  /\ cased.2 = true
  /\ (read_config cased.1.1.1 cased.1.1.2 "profileA" false).2
     = Some (Py.py_dict
               [("Server", Py.py_dict [("host", Py.py_str "rf4game.com")])])
  /\ (read_config cased.1.1.1 cased.1.1.2 "profileA" false).2
     <> Some (Py.py_dict Examples.cased).
Proof.
  repeat split; try reflexivity; vm_compute; discriminate.
Qed.

End ConfigurationBridgeFacts.

(** ** More on [EventManager] *)

Module EventBusFacts.
Import EventManager.

Lemma publish_history m run event_name payload src now1 now2 :
  length (event_history m) <= 1000 ->
  event_history (publish m run event_name payload src now1 now2).1
  = Py.keep 1000 (event_history m
                  ++ [event_of (event_name, payload, src, now1, now2)]).
Proof.
  intros Hlen. unfold publish, max_history. simpl.
  destruct (Nat.ltb_spec 1000 (length (event_history m ++
    [{| name := event_name; data := payload; timestamp := now1;
        source := src; event_id := (event_name, now2) |}]))) as [Hlong|Hshort].
  - unfold Py.keep. rewrite length_app in *. simpl in *.
    by replace (length (event_history m) + 1 - 1000)%nat with 1%nat by lia.
  - by rewrite PyFacts.keep_all.
Qed.

(** X1: the event history is a queue of at most 1000 events.  Starting from a
    history within the bound, any sequence of publishes leaves the last
    1000 events at most, oldest first, whatever the subscribers do. *)
Theorem event_history_is_a_bounded_queue (run : nat -> event -> outcome)
    (requests : list request) (m : manager) :
  length (event_history m) <= 1000 ->
  event_history (publish_all m run requests)
  = Py.keep 1000 (event_history m ++ map event_of requests)
  /\ length (event_history (publish_all m run requests)) <= 1000.
Proof.
  revert m. induction requests as [|r rest IH]; intros m Hlen.
  - simpl. rewrite app_nil_r, PyFacts.keep_all by done. done.
  - destruct r as [[[[event_name payload] src] now1] now2].
    change (publish_all m run ((event_name, payload, src, now1, now2) :: rest))
      with (publish_all (publish m run event_name payload src now1 now2).1 run rest).
    pose proof (publish_history m run event_name payload src now1 now2 Hlen) as Hp.
    destruct (IH (publish m run event_name payload src now1 now2).1) as [IH1 IH2].
    { rewrite Hp, PyFacts.keep_length. lia. }
    split; [|exact IH2].
    rewrite IH1, Hp, PyFacts.keep_app_keep, <- app_assoc. reflexivity.
Qed.

Lemma event_history_is_a_bounded_queue_witness :
  length (event_history
            (publish_all init (fun _ _ => returned)
               (replicate 1003 ("tick", Py.py_none, None, 0%Q, 0%Q)))) <= 1000.
Proof.
  apply (event_history_is_a_bounded_queue (fun _ _ => returned)
           (replicate 1003 ("tick", Py.py_none, None, 0%Q, 0%Q)) init).
  simpl. lia.
Defined.

(** *** The order of the subscribers *)

Lemma insert_at_head (x : callback_info) (l : list callback_info) :
  Forall (by_priority x) l -> insert_by_priority x l = x :: l.
Proof.
  intros Hall. destruct l as [|y rest]; [done|]. simpl.
  rewrite Forall_cons in Hall. destruct Hall as [Hy _]. unfold by_priority in Hy.
  destruct (Z.ltb_spec (priority x) (priority y)); [lia|done].
Qed.

Lemma insert_elem_of (x y : callback_info) (l : list callback_info) :
  y ∈ insert_by_priority x l <-> y = x \/ y ∈ l.
Proof.
  induction l as [|z rest IH]; simpl.
  - rewrite list_elem_of_singleton, elem_of_nil. tauto.
  - destruct (priority x <? priority z)%Z.
    + rewrite !elem_of_cons, IH. tauto.
    + rewrite !elem_of_cons. tauto.
Qed.

Lemma insert_keeps_order (x : callback_info) (l : list callback_info) :
  StronglySorted by_priority l -> StronglySorted by_priority (insert_by_priority x l).
Proof.
  induction 1 as [|z rest Hsorted IH Hall]; simpl.
  - repeat constructor.
  - destruct (Z.ltb_spec (priority x) (priority z)) as [Hlt|Hge].
    + constructor; [exact IH|].
      apply Forall_forall. intros y Hy. apply insert_elem_of in Hy as [->|Hy].
      * unfold by_priority. lia.
      * rewrite Forall_forall in Hall. by apply Hall.
    + constructor; [by constructor|].
      constructor; [unfold by_priority; lia|].
      eapply Forall_impl; [exact Hall|]. unfold by_priority. intros; lia.
Qed.

Lemma sort_is_sorted (l : list callback_info) :
  StronglySorted by_priority (sort_by_priority l).
Proof.
  induction l as [|x rest IH]; simpl; [constructor|].
  by apply insert_keeps_order.
Qed.

Lemma insert_not_nil (x : callback_info) (l : list callback_info) :
  insert_by_priority x l <> [].
Proof. destruct l as [|y rest]; simpl; [done|]. by destruct (_ <? _)%Z. Qed.

Lemma filter_all {A} (P : A -> Prop) `{forall x, Decision (P x)} (l : list A) :
  Forall P l -> filter P l = l.
Proof.
  induction 1 as [|x rest Hx _ IH]; [done|].
  by rewrite filter_cons_True, IH.
Qed.

Lemma filter_none {A} (P : A -> Prop) `{forall x, Decision (P x)} (l : list A) :
  Forall (fun x => ~ P x) l -> filter P l = [].
Proof.
  induction 1 as [|x rest Hx _ IH]; [done|].
  by rewrite filter_cons_False.
Qed.

(** A new entry settles behind the entries of its priority or more and
    before those of less. *)
Lemma sort_new_entry (x : callback_info) (l : list callback_info) :
  StronglySorted by_priority l ->
  sort_by_priority (l ++ [x])
  = filter (fun y => (priority x <= priority y)%Z) l
    ++ x :: filter (fun y => (priority y < priority x)%Z) l.
Proof.
  unfold sort_by_priority. rewrite foldr_app. simpl.
  induction 1 as [|y rest Hsorted IH Hall]; [done|].
  simpl. rewrite IH.
  destruct (decide (priority x <= priority y)%Z) as [Hle|Hgt].
  - rewrite filter_cons_True by done. rewrite filter_cons_False by lia.
    apply insert_at_head. apply Forall_app. split.
    + apply Forall_forall. intros z Hz. apply list_elem_of_filter in Hz as [_ Hz].
      rewrite Forall_forall in Hall. by apply Hall.
    + constructor; [done|].
      apply Forall_forall. intros z Hz. apply list_elem_of_filter in Hz as [_ Hz].
      rewrite Forall_forall in Hall. by apply Hall.
  - rewrite filter_cons_False by done. rewrite filter_cons_True by lia.
    rewrite (filter_none (fun z => (priority x <= priority z)%Z)).
    2:{ eapply Forall_impl; [exact Hall|]. unfold by_priority. intros; lia. }
    rewrite (filter_all (fun z => (priority z < priority x)%Z)).
    2:{ eapply Forall_impl; [exact Hall|]. unfold by_priority. intros; lia. }
    simpl. destruct (Z.ltb_spec (priority y) (priority x)); [|lia].
    f_equal. by apply insert_at_head.
Qed.

(** The subscriber lists of a manager that the operations build are
    sorted and not empty. *)
Lemma built_entries_sorted (m : manager) :
  built m ->
  forall n entries,
    subscribers m !! n = Some entries ->
    StronglySorted by_priority entries /\ entries <> [].
Proof.
  intros Hbuilt.
  induction Hbuilt as [|m event_name cb prio _ IH|m event_name cb _ IH
                       |m run event_name payload src now1 now2 _ IH|m _ IH];
    intros n entries Hn.
  - simpl in Hn. by rewrite lookup_empty in Hn.
  - unfold subscribe in Hn. simpl in Hn.
    destruct (decide (event_name = n)) as [->|Hne].
    + rewrite lookup_insert_eq in Hn. injection Hn as <-.
      split; [apply sort_is_sorted|].
      unfold sort_by_priority. rewrite foldr_app. simpl.
      destruct (default [] (subscribers m !! n)); simpl; [done|].
      apply insert_not_nil.
    + rewrite lookup_insert_ne in Hn by done. by apply (IH n).
  - unfold unsubscribe in Hn.
    destruct (subscribers m !! event_name) as [current|] eqn:Ec; [|by apply (IH n)].
    simpl in Hn.
    destruct (filter (fun cb_info => callback cb_info ≠ cb) current)
      as [|k kept] eqn:Ek; simpl in Hn.
    + destruct (decide (event_name = n)) as [->|Hne].
      * by rewrite lookup_delete_eq in Hn.
      * rewrite lookup_delete_ne in Hn by done. by apply (IH n).
    + destruct (decide (event_name = n)) as [->|Hne].
      * rewrite lookup_insert_eq in Hn. injection Hn as <-. split; [|done].
        rewrite <- Ek. destruct (IH n current Ec) as [Hs _].
        clear -Hs. induction Hs as [|y rest Hs IHs Hall]; [constructor|].
        destruct (decide (callback y ≠ cb)).
        -- rewrite filter_cons_True by done. constructor; [done|].
           apply Forall_forall. intros z Hz.
           apply list_elem_of_filter in Hz as [_ Hz].
           rewrite Forall_forall in Hall. by apply Hall.
        -- by rewrite filter_cons_False.
      * rewrite lookup_insert_ne in Hn by done. by apply (IH n).
  - by apply (IH n).
  - by apply (IH n).
Qed.

(** X2: on every manager that the operations build, each event name
    that has an entry has at least one subscriber, and its subscribers
    are in descending order of priority; [has_subscribers] holds exactly
    for the names that have an entry. *)
Theorem subscribers_stay_ordered (m : manager) :
  built m ->
  forall event_name,
    match subscribers m !! event_name with
    | Some entries =>
        StronglySorted by_priority entries /\ entries <> []
        /\ has_subscribers m event_name = true
    | None => has_subscribers m event_name = false
    end.
Proof.
  intros Hbuilt event_name.
  pose proof (built_entries_sorted m Hbuilt event_name) as Hinv.
  unfold has_subscribers.
  destruct (subscribers m !! event_name) as [entries|] eqn:E; [|done].
  destruct (Hinv entries eq_refl) as [Hs Hne]. repeat split; try done.
  by destruct entries.
Qed.

Lemma subscribers_stay_ordered_witness :
  match subscribers Examples.two_subscribers !! "tick" with
  | Some entries =>
      StronglySorted by_priority entries /\ entries <> []
      /\ has_subscribers Examples.two_subscribers "tick" = true
  | None => has_subscribers Examples.two_subscribers "tick" = false
  end.
Proof.
  apply (subscribers_stay_ordered Examples.two_subscribers).
  repeat constructor.
Defined.

(** X3: where a new subscriber goes.  On a manager that the operations
    build, [subscribe] puts the new entry behind all entries of the event
    name with the same or a higher priority and before all entries with a
    lower one; the entries that were there keep their order. *)
Theorem subscribe_orders_by_priority (m : manager) (event_name : string)
    (cb : nat) (prio : Z) :
  built m ->
  let current := default [] (subscribers m !! event_name) in
  subscribers (subscribe m event_name cb prio) !! event_name
  = Some (filter (fun y => (prio <= priority y)%Z) current
          ++ {| callback := cb; priority := prio |}
             :: filter (fun y => (priority y < prio)%Z) current).
Proof.
  intros Hbuilt current. unfold subscribe. simpl. rewrite lookup_insert_eq.
  f_equal. fold current.
  apply (sort_new_entry {| callback := cb; priority := prio |}).
  pose proof (built_entries_sorted m Hbuilt event_name) as Hinv.
  subst current.
  destruct (subscribers m !! event_name) as [entries|]; simpl; [|constructor].
  apply (Hinv entries eq_refl).
Qed.

Lemma subscribe_orders_by_priority_witness :
  subscribers (subscribe Examples.two_subscribers "tick" 3 5) !! "tick"
  = Some [{| callback := 3; priority := 5 |};
          {| callback := 1; priority := 0 |};
          {| callback := 2; priority := 0 |}].
Proof.
  apply (subscribe_orders_by_priority Examples.two_subscribers "tick" 3 5).
  repeat constructor.
Defined.

(** X4: after [unsubscribe] a publish on the event name calls the
    remaining entries, once each and in their order, and never the
    callback that was removed, however often it had been subscribed. *)
Theorem unsubscribed_callback_is_not_called (m : manager)
    (run : nat -> event -> outcome) (event_name : string) (cb : nat)
    (payload : Py.value) (src : option string) (now1 now2 : Q) :
  let e := event_of (event_name, payload, src, now1, now2) in
  let steps :=
    (publish (unsubscribe m event_name cb) run event_name payload src now1 now2).2 in
  filter is_invocation steps
  = map (fun s => invoked (callback s) e)
        (filter (fun s => callback s <> cb)
                (default [] (subscribers m !! event_name)))
  /\ invoked cb e ∉ steps.
Proof.
  intros e steps.
  assert (default [] (subscribers (unsubscribe m event_name cb) !! event_name)
          = filter (fun s => callback s <> cb)
                   (default [] (subscribers m !! event_name))) as Hkept.
  { unfold unsubscribe.
    destruct (subscribers m !! event_name) as [current|] eqn:Ec; simpl.
    - destruct (filter (fun cb_info => callback cb_info ≠ cb) current) eqn:Ek; simpl.
      + by rewrite lookup_delete_eq.
      + by rewrite lookup_insert_eq.
    - by rewrite Ec. }
  assert (filter is_invocation steps
          = map (fun s => invoked (callback s) e)
              (filter (fun s => callback s <> cb)
                 (default [] (subscribers m !! event_name)))) as Hcalls.
  { subst steps. unfold publish, notify_subscribers. simpl.
    rewrite Hkept. apply EventManagerFacts.notify_invokes_each_once. }
  split; [exact Hcalls|].
  intros Hin.
  assert (invoked cb e ∈ filter is_invocation steps) as Hin'
    by (apply list_elem_of_filter; split; [done|exact Hin]).
  rewrite Hcalls in Hin'. apply list_elem_of_fmap in Hin' as (s & Hs & Hs').
  apply list_elem_of_filter in Hs' as [Hne _]. by injection Hs as ->.
Qed.

End EventBusFacts.

(** ** More on the history getters *)

Module HistorySliceFacts.

(** What [l[-limit:]] keeps, by the sign of the limit. *)
Lemma last_items_by_sign {A} (limit : Z) (l : list A) :
  Py.last_items limit l
  = match limit with
    | Z0 => l
    | Zpos _ => drop (length l - Z.to_nat limit) l
    | Zneg _ => drop (Z.to_nat (- limit)) l
    end.
Proof.
  destruct limit as [|p|p]; [done| |].
  - replace (Z.pos p) with (Z.of_nat (Z.to_nat (Z.pos p))) at 1 by lia.
    apply PyFacts.last_items_pos. lia.
  - unfold Py.last_items, Py.slice_from.
    destruct (Z.ltb_spec (- Z.neg p) 0); [lia|done].
Qed.

(** X5: the history getters with a limit other than zero.  A positive
    limit returns the most recent [limit] entries, oldest first, or all
    of them when there are fewer.  A negative limit [-k] does not fail: it
    returns the history without its [k] oldest entries. *)
Theorem history_getters_follow_the_limit (limit : Z) :
  let kept {A} (l : list A) : list A :=
    match limit with
    | Z0 => l
    | Zpos _ => drop (length l - Z.to_nat limit) l
    | Zneg _ => drop (Z.to_nat (- limit)) l
    end in
  (forall m : ConnectionMonitor.monitor,
      ConnectionMonitor.get_connection_history m limit
      = kept (ConnectionMonitor.connection_history m))
  /\ (forall g : GameMonitor.monitor,
        GameMonitor.get_status_history g limit = kept (GameMonitor.status_history g))
  /\ (forall m : EventManager.manager,
        EventManager.get_event_history m None limit
        = kept (EventManager.event_history m))
  /\ (forall (m : EventManager.manager) (n : string),
        n <> EmptyString ->
        EventManager.get_event_history m (Some n) limit
        = kept (filter (fun e => EventManager.name e = n)
                       (EventManager.event_history m))
        /\ Forall (fun e => EventManager.name e = n)
                  (EventManager.get_event_history m (Some n) limit)).
Proof.
  intros kept. repeat split.
  - intros m. unfold ConnectionMonitor.get_connection_history.
    destruct (ConnectionMonitor.connection_history m) as [|e es] eqn:E.
    + subst kept. simpl. destruct limit; by rewrite ?drop_nil.
    + cbn [Py.truthy]. apply last_items_by_sign.
  - intros g. unfold GameMonitor.get_status_history.
    destruct (GameMonitor.status_history g) as [|e es] eqn:E.
    + subst kept. simpl. destruct limit; by rewrite ?drop_nil.
    + cbn [Py.truthy]. apply last_items_by_sign.
  - intros m. apply last_items_by_sign.
  - unfold EventManager.get_event_history.
    destruct (String.eqb_spec n EmptyString); [done|]. apply last_items_by_sign.
  - unfold EventManager.get_event_history.
    destruct (String.eqb_spec n EmptyString); [done|].
    rewrite last_items_by_sign.
    assert (Forall (fun e => EventManager.name e = n)
              (filter (fun e => EventManager.name e = n)
                      (EventManager.event_history m))) as Hall.
    { apply Forall_forall. intros e He. by apply list_elem_of_filter in He as [? _]. }
    destruct limit; [done| |]; by apply Forall_drop.
Qed.

Lemma history_getters_follow_the_limit_witness :
  EventManager.get_event_history
    (EventManager.publish_all EventManager.init (fun _ _ => EventManager.returned)
       [("a", Py.py_none, None, 1%Q, 1%Q); ("b", Py.py_none, None, 2%Q, 2%Q);
        ("a", Py.py_none, None, 3%Q, 3%Q)])
    (Some "a") (-1)
  = [EventManager.event_of ("a", Py.py_none, None, 3%Q, 3%Q)].
Proof.
  rewrite (proj1 (proj2 (proj2 (proj2 (history_getters_follow_the_limit (-1)))) _ "a"
                   ltac:(discriminate))).
  reflexivity.
Defined.

End HistorySliceFacts.

(** ** More on [ServiceRegistry] *)

Module ServiceLocatorFacts.
Import ServiceRegistry.

(** an instance registered with [register_instance] is what every
    [get_service] of the name returns; no class and no factory
    registered under the name is called, and the registry does not
    change. *)
Lemma registered_instance_is_served (r : registry) (name : string)
    (obj : instance) (n : nat) :
  get_many (register_instance r name (Some obj)) name n
  = (register_instance r name (Some obj), [], replicate n (service (Some obj))).
Proof.
  apply ServiceRegistryFacts.get_many_cached. simpl. apply lookup_insert_eq.
Qed.

(** X6: a class registered with [register_service] as a singleton is
    instantiated by the first [get_service] alone; every lookup returns
    that one object, also when a factory is registered under the same
    name. *)
Theorem singleton_class_is_instantiated_once (r : registry) (name : string)
    (n : nat) :
  let r1 := register_service r name constructs true in
  (get_many r1 name (S n)).1.2 = [class_called name]
  /\ (get_many r1 name (S n)).2 = replicate (S n) (service (Some (fresh r)))
  /\ singletons (get_many r1 name (S n)).1.1 !! name = Some (Some (fresh r)).
Proof.
  intros r1. subst r1. simpl. unfold get_service. simpl.
  rewrite !lookup_insert_eq. simpl.
  rewrite (ServiceRegistryFacts.get_many_cached _ name (fresh r) n)
    by (simpl; apply lookup_insert_eq).
  simpl. by rewrite lookup_insert_eq.
Qed.

Lemma uncached_class_lookups name n : forall r,
  singletons r !! name = None ->
  services r !! name = Some constructs ->
  (get_many r name n).1.2 = replicate n (class_called name)
  /\ (get_many r name n).2 = map (fun i => service (Some (fresh r + i))) (seq 0 n)
  /\ singletons (get_many r name n).1.1 = singletons r.
Proof.
  induction n as [|k IH]; intros r Hs Hc; [done|].
  simpl. unfold get_service. rewrite Hs, Hc. simpl.
  destruct (IH (with_fresh r (S (fresh r))) Hs Hc) as (IH1 & IH2 & IH3).
  destruct (get_many (with_fresh r (S (fresh r))) name k) as [[r2 calls2] rest].
  simpl in *. rewrite IH1, IH2, IH3. repeat split.
  f_equal; [f_equal; f_equal; lia|].
  rewrite <- (fmap_S_seq 0 k), <- list_fmap_compose.
  apply list_fmap_ext. intros _ i _. simpl. do 2 f_equal. lia.
Qed.

(** X7: a class registered with [singleton = False] under a name that
    has no singleton entry is instantiated by every [get_service]: n
    lookups build n objects, all different, and cache none. *)
Theorem transient_class_is_instantiated_each_time (r : registry) (name : string)
    (n : nat) :
  singletons r !! name = None ->
  let r1 := register_service r name constructs false in
  (get_many r1 name n).1.2 = replicate n (class_called name)
  /\ (get_many r1 name n).2 = map (fun i => service (Some (fresh r + i))) (seq 0 n)
  /\ NoDup (get_many r1 name n).2
  /\ singletons (get_many r1 name n).1.1 = singletons r.
Proof.
  intros Hs r1.
  destruct (uncached_class_lookups name n r1) as (H1 & H2 & H3).
  { exact Hs. }
  { subst r1. simpl. apply lookup_insert_eq. }
  repeat split; [exact H1|exact H2| |exact H3].
  rewrite H2. apply NoDup_fmap_2; [|apply NoDup_seq].
  intros i j Hij. injection Hij. lia.
Qed.

Lemma transient_class_is_instantiated_each_time_witness :
  (get_many (register_service init "svc" constructs false) "svc" 3).2
  = [service (Some 0); service (Some 1); service (Some 2)].
Proof.
  apply (transient_class_is_instantiated_each_time init "svc" 3).
  apply lookup_empty.
Defined.

(** X8: [has_service] and [get_service] on names that are not there.
    For a name [has_service] rejects, [get_service] raises "Service not
    found" itself, calls nothing and leaves the registry alone; it does
    so for no other name.  For a name [has_service] accepts, an
    exception of [get_service] is "Service not registered" (a
    placeholder without class or factory, nothing called), or it comes
    from the one class or factory that was called: a [ServiceException]
    of the callable goes on unchanged, whatever its name and message,
    and any other exception is wrapped.  After [unregister_service] the
    name is rejected and has no dependencies, whatever was registered
    under it. *)
Theorem unknown_service_is_not_found (r : registry) (name : string) :
  (has_service r name = false <->
     get_service r name = (r, [], service_exception name "Service not found"))
  /\ (has_service r name = true ->
      forall r' calls service_name msg,
        get_service r name = (r', calls, service_exception service_name msg) ->
        (calls = [] /\ r' = r /\ service_name = name
         /\ msg = "Service not registered")
        \/ (exists c,
              (services r !! name = Some c /\ calls = [class_called name]
               \/ services r !! name = None /\ factories r !! name = Some c
                  /\ calls = [factory_called name])
              /\ singletons r' = singletons r
              /\ match c with
                 | fails m =>
                     service_name = name
                     /\ msg = "Failed to get service: " +:+ m
                 | fails_in_service n m => service_name = n /\ msg = m
                 | constructs | yields _ => False
                 end))
  /\ has_service (unregister_service r name) name = false
  /\ get_dependencies (unregister_service r name) name = [].
Proof.
  split; [|split; [|split]].
  - unfold has_service, get_service. split.
    + intros Hnone. apply orb_false_iff in Hnone as [Hnone Hs].
      apply orb_false_iff in Hnone as [Hc Hf].
      apply bool_decide_eq_false in Hc. apply bool_decide_eq_false in Hf.
      apply bool_decide_eq_false in Hs.
      apply eq_None_not_Some in Hc. apply eq_None_not_Some in Hf.
      apply eq_None_not_Some in Hs. by rewrite Hs, Hc, Hf.
    + intros Hget.
      destruct (singletons r !! name) as [[obj|]|] eqn:Hs; [done| |].
      * destruct (services r !! name) as [cls|]; [|destruct (factories r !! name)];
          [destruct (invoke cls (fresh r)) as [[?|?] ?]; done
          |destruct (invoke c (fresh r)) as [[?|?] ?]; done|done].
      * destruct (services r !! name) as [cls|] eqn:Hc;
          [destruct (invoke cls (fresh r)) as [[?|?] ?]; done|].
        destruct (factories r !! name) as [f|] eqn:Hf;
          [destruct (invoke f (fresh r)) as [[?|?] ?]; done|].
        done.
  - intros Hknown r' calls service_name msg Hget.
    unfold has_service in Hknown. unfold get_service in Hget.
    destruct (singletons r !! name) as [[obj|]|] eqn:Hs; [done| |].
    + destruct (services r !! name) as [cls|] eqn:Hc.
      * right. exists cls. destruct cls; simpl in Hget; try done;
          injection Hget as <- <- <- <-; (split; [by left|done]).
      * destruct (factories r !! name) as [f|] eqn:Hf.
        -- right. exists f. destruct f; simpl in Hget; try done;
             injection Hget as <- <- <- <-; (split; [by right|done]).
        -- left. by injection Hget as <- <- <- <-.
    + destruct (services r !! name) as [cls|] eqn:Hc.
      * right. exists cls. destruct cls; simpl in Hget; try done;
          injection Hget as <- <- <- <-; (split; [by left|done]).
      * destruct (factories r !! name) as [f|] eqn:Hf.
        -- right. exists f. destruct f; simpl in Hget; try done;
             injection Hget as <- <- <- <-; (split; [by right|done]).
        -- exfalso.
           rewrite !bool_decide_eq_false_2 in Hknown; [done|..]; by intros [? ?].
  - unfold has_service, unregister_service. simpl.
    rewrite !lookup_delete_eq.
    rewrite !bool_decide_eq_false_2; [done|..]; by intros [? ?].
  - unfold get_dependencies, unregister_service. simpl.
    by rewrite lookup_delete_eq.
Qed.

Lemma unknown_service_is_not_found_witness :
  exists c,
    factories (register_factory init "svc"
                 (fails_in_service "db" "Service not found")) !! "svc" = Some c
    /\ match c with
       | fails_in_service n m => n = "db" /\ m = "Service not found"
       | _ => False
       end.
Proof.
  destruct (proj1 (proj2 (unknown_service_is_not_found
              (register_factory init "svc"
                 (fails_in_service "db" "Service not found")) "svc"))
              eq_refl _ _ _ _ eq_refl)
    as [(Hcalls & _)|(c & [(Hclass & _)|(_ & Hfactory & _)] & _ & Hraised)].
  - discriminate Hcalls.
  - discriminate Hclass.
  - exists c. split; [exact Hfactory|].
    destruct c as [| |m|n m];
      [done|done|by destruct Hraised|by destruct Hraised as [<- <-]].
Defined.

(** X9: [list_services] lists exactly the names [has_service] accepts.
    A name that sits in several tables is listed once: as a singleton if
    it has a singleton entry, else as a factory if it has one, else as
    a class. *)
Theorem listed_services_are_the_known_ones (r : registry) (name : string) :
  has_service r name = bool_decide (is_Some (list_services r !! name))
  /\ list_services r !! name
     = match singletons r !! name, factories r !! name, services r !! name with
       | Some _, _, _ => Some "singleton"
       | None, Some _, _ => Some "factory"
       | None, None, Some _ => Some "class"
       | None, None, None => None
       end.
Proof.
  assert (list_services r !! name
          = match singletons r !! name, factories r !! name, services r !! name with
            | Some _, _, _ => Some "singleton"
            | None, Some _, _ => Some "factory"
            | None, None, Some _ => Some "class"
            | None, None, None => None
            end) as Hkind.
  { unfold list_services. rewrite !lookup_union, !lookup_fmap.
    by destruct (singletons r !! name), (factories r !! name), (services r !! name). }
  split; [|exact Hkind].
  assert (forall (A : Type) (o : option A),
             bool_decide (is_Some o) = match o with Some _ => true | None => false end)
    as Hsome.
  { intros A [x|]; [apply bool_decide_eq_true_2; eauto|].
    apply bool_decide_eq_false_2. by intros [? ?]. }
  rewrite Hkind. unfold has_service. rewrite !Hsome.
  by destruct (singletons r !! name), (factories r !! name), (services r !! name).
Qed.

(** X10: [add_dependency] records an edge once.  The dependency is in the
    list afterwards, adding it again changes nothing, a list without
    repetitions stays one, and the lists of the other services are not
    touched. *)
Theorem dependencies_are_recorded_once (r : registry)
    (service_name dependency_name : string) :
  dependency_name ∈ get_dependencies
                      (add_dependency r service_name dependency_name) service_name
  /\ add_dependency (add_dependency r service_name dependency_name)
       service_name dependency_name
     = add_dependency r service_name dependency_name
  /\ (NoDup (get_dependencies r service_name) ->
      NoDup (get_dependencies (add_dependency r service_name dependency_name)
               service_name))
  /\ (forall other, other <> service_name ->
        get_dependencies (add_dependency r service_name dependency_name) other
        = get_dependencies r other).
Proof.
  unfold get_dependencies, add_dependency. simpl.
  rewrite !lookup_insert_eq. simpl. unfold Py.append_new.
  repeat split.
  - case_bool_decide; [done|]. apply elem_of_app. right. by left.
  - f_equal. rewrite insert_insert_eq. f_equal.
    destruct (bool_decide (dependency_name
                ∈ default [] (dependencies r !! service_name))) eqn:Hin.
    + by rewrite Hin.
    + rewrite bool_decide_eq_true_2; [done|].
      apply elem_of_app. right. by left.
  - intros Hnodup. case_bool_decide as Hin; [done|].
    apply NoDup_app. split; [done|]. split; [|apply NoDup_singleton].
    intros x Hx Hx'. apply list_elem_of_singleton in Hx'. by subst.
  - intros other Hne. by rewrite lookup_insert_ne.
Qed.

Lemma dependencies_are_recorded_once_witness :
  NoDup (get_dependencies
           (add_dependency (add_dependency init "ui" "events") "ui" "events") "ui").
Proof.
  destruct (dependencies_are_recorded_once
              (add_dependency init "ui" "events") "ui" "events")
    as (_ & _ & Hnodup & _).
  apply Hnodup. vm_compute. apply NoDup_singleton.
Defined.

End ServiceLocatorFacts.

(** ** More on [ConfigurationBridge] *)

Module ConfigFileFacts.
Import ConfigurationBridge.

Section Any_libraries.
Context `{Libraries}.

Lemma write_config_file_frame fs config_name ext config_data :
  backup_dir (write_config_file fs config_name ext config_data).1 = backup_dir fs
  /\ read_only (write_config_file fs config_name ext config_data).1 = read_only fs
  /\ (forall q, q <> file_name config_name ext ->
        config_dir (write_config_file fs config_name ext config_data).1 !! q
        = config_dir fs !! q).
Proof.
  unfold write_config_file.
  destruct (bool_decide (file_name config_name ext ∈ read_only fs)); [done|].
  destruct (bool_decide (Py.lower (suffix config_name ext) ∈ [".yaml"; ".yml"]));
    [destruct (yaml_dump config_data)|
     destruct (String.eqb (Py.lower (suffix config_name ext)) ".json");
       [destruct (json_dump config_data)|
        destruct (bool_decide (Py.lower (suffix config_name ext) ∈ [".ini"; ".cfg"]));
          [destruct (fill_parser ConfigParser config_data)|]]];
    simpl; repeat split; intros; by rewrite lookup_insert_ne.
Qed.

Lemma find_config_file_exists fs config_name ext :
  find_config_file fs config_name = Some ext ->
  exists_ fs (file_name config_name ext) = true.
Proof.
  unfold find_config_file. intros Hfind.
  by apply find_some in Hfind as [_ Hex].
Qed.

(** X11: backup before overwrite.  When the target exists and the
    backup directory takes new files, [write_config] with
    [create_backup = True] leaves the content the file had before the
    write in the backup directory, under [stem_timestamp.suffix], whether
    the write itself succeeds or not; no other backup is touched. *)
Theorem backup_holds_the_previous_content (b : bridge) (fs : filesystem)
    (config_name ext : string) (config_data : Py.mapping) (timestamp : string)
    (old : text) :
  find_config_file fs config_name = Some ext ->
  config_dir fs !! file_name config_name ext = Some old ->
  backups_writable fs = true ->
  let after := (write_config b fs config_name config_data true timestamp).1.1.2 in
  let backup_name :=
    stem config_name ext +:+ "_" +:+ timestamp +:+ suffix config_name ext in
  backup_dir after !! backup_name = Some old
  /\ (forall other, other <> backup_name ->
        backup_dir after !! other = backup_dir fs !! other).
Proof.
  intros Hfind Hold Hbackups after backup_name. subst after.
  unfold write_config, target_file. rewrite Hfind.
  rewrite (find_config_file_exists _ _ _ Hfind). simpl.
  unfold create_backup. rewrite Hold, Hbackups. simpl.
  pose proof (write_config_file_frame
                (put_backup fs backup_name old) config_name ext config_data)
    as (Hb & _ & _).
  fold backup_name.
  destruct (write_config_file (put_backup fs backup_name old)
              config_name ext config_data) as [fs2 ok].
  simpl in Hb. destruct ok; simpl; rewrite Hb; simpl.
  - split; [apply lookup_insert_eq|]. intros; by rewrite lookup_insert_ne.
  - split; [apply lookup_insert_eq|]. intros; by rewrite lookup_insert_ne.
Qed.

(** X12: what [write_config] leaves alone.  For a logical name that is
    a single path component (so that its candidates are files of the
    configuration directory), the files of the configuration directory
    other than the candidates of the name keep their content, the cache
    entries of other names and all watchers stay as they are, and
    without [create_backup] the backup directory is not touched. *)
Theorem write_config_touches_only_its_target (b : bridge) (fs : filesystem)
    (config_name : string) (config_data : Py.mapping) (backup : bool)
    (timestamp : string) :
  Py.plain_name config_name = true ->
  let out := write_config b fs config_name config_data backup timestamp in
  (forall q, (forall ext, q <> file_name config_name ext) ->
      config_dir out.1.1.2 !! q = config_dir fs !! q)
  /\ (forall other, other <> config_name ->
        config_cache out.1.1.1 !! other = config_cache b !! other)
  /\ observers out.1.1.1 = observers b
  /\ change_callbacks out.1.1.1 = change_callbacks b
  /\ (backup = false -> backup_dir out.1.1.2 = backup_dir fs).
Proof.
  intros _ out. subst out. unfold write_config.
  destruct (target_file fs config_name) as [ext|]; [|done].
  set (fsb := if backup && exists_ fs (file_name config_name ext)
              then (create_backup fs config_name ext timestamp).1 else fs).
  assert (config_dir fsb = config_dir fs) as Hdir.
  { subst fsb. destruct (backup && exists_ fs (file_name config_name ext));
      [apply ConfigurationBridgeFacts.create_backup_config_dir|done]. }
  pose proof (write_config_file_frame fsb config_name ext config_data)
    as (Hb & _ & Hc).
  destruct (write_config_file fsb config_name ext config_data) as [fs2 ok].
  simpl in Hb, Hc.
  assert (forall q, (forall e, q <> file_name config_name e) ->
                    config_dir fs2 !! q = config_dir fs !! q) as Hfiles.
  { intros q Hq. rewrite Hc by apply Hq. by rewrite Hdir. }
  assert (backup = false -> backup_dir fs2 = backup_dir fs) as Hbackup.
  { intros ->. rewrite Hb. by subst fsb. }
  destruct ok; simpl; repeat split; try done.
  intros other Hne. by rewrite lookup_insert_ne.
Qed.

(** X13: a write that fails.  When [write_config] returns [False] the
    cache and the watchers are as before and nobody is notified.  A
    target that cannot be opened for writing makes it fail and keeps the
    files of the configuration directory as they were. *)
Theorem failed_write_keeps_cache_and_files (b : bridge) (fs : filesystem)
    (config_name : string) (config_data : Py.mapping) (backup : bool)
    (timestamp : string) :
  let out := write_config b fs config_name config_data backup timestamp in
  (out.2 = false -> out.1.1.1 = b /\ out.1.2 = [])
  /\ (forall ext, target_file fs config_name = Some ext ->
        file_name config_name ext ∈ read_only fs ->
        out.2 = false /\ config_dir out.1.1.2 = config_dir fs).
Proof.
  intros out. subst out. unfold write_config. split.
  - destruct (target_file fs config_name) as [ext|]; [|done].
    destruct (write_config_file _ config_name ext config_data) as [fs2 [|]];
      simpl; [discriminate|done].
  - intros ext -> Hro.
    set (fsb := if backup && exists_ fs (file_name config_name ext)
                then (create_backup fs config_name ext timestamp).1 else fs).
    assert (config_dir fsb = config_dir fs /\ read_only fsb = read_only fs)
      as [Hdir Hread].
    { subst fsb. destruct (backup && exists_ fs (file_name config_name ext));
        [|done].
      split; [apply ConfigurationBridgeFacts.create_backup_config_dir
             |apply ConfigurationBridgeFacts.create_backup_read_only]. }
    unfold write_config_file. rewrite Hread.
    rewrite bool_decide_eq_true_2 by done. simpl. done.
Qed.

Lemma cached_read_ignores_the_disk (b : bridge) (fs : filesystem)
    (config_name : string) (use_cache : bool) (b1 : bridge) (v : Py.value) :
  read_config b fs config_name use_cache = (b1, Some v) ->
  forall fs', read_config b1 fs' config_name true = (b1, Some v).
Proof.
  unfold read_config. intros Hread fs'.
  destruct (if use_cache then config_cache b !! config_name else None)
    as [cached|] eqn:Ecache.
  - destruct use_cache; [|done].
    destruct (Py.has_copy cached) eqn:Hcopy; [|done].
    injection Hread as <- <-. by rewrite Ecache, Hcopy.
  - destruct (find_config_file fs config_name) as [ext|]; [|done].
    destruct (read_config_file fs config_name ext) as [loaded|]; [|done].
    destruct (Py.has_copy loaded) eqn:Hcopy; [|done].
    injection Hread as <- <-. simpl. by rewrite lookup_insert_eq, Hcopy.
Qed.

Lemma cached_read_after_write (b : bridge) (fs : filesystem)
    (config_name : string) (config_data : Py.mapping) (backup : bool)
    (timestamp : string) (b1 : bridge) (fs1 : filesystem)
    (notes : list notification) :
  write_config b fs config_name config_data backup timestamp
  = (b1, fs1, notes, true) ->
  forall fs', read_config b1 fs' config_name true
              = (b1, Some (Py.py_dict config_data)).
Proof.
  unfold write_config. intros Hwrite fs'.
  destruct (target_file fs config_name) as [ext|]; [|done].
  destruct (write_config_file _ config_name ext config_data) as [fs2 [|]];
    [|done].
  injection Hwrite as <- _ _. unfold read_config. simpl.
  by rewrite lookup_insert_eq.
Qed.

(** X14: the cache wins over the disk.  Once [read_config] has returned
    a mapping for a name, or [write_config] has returned [True] for it,
    reading the name with the cache returns that mapping whatever has
    happened to the files since: the cache is not checked against the
    disk. *)
Theorem cache_wins_over_the_disk (b : bridge) (fs : filesystem)
    (config_name : string) :
  (forall use_cache b1 v,
      read_config b fs config_name use_cache = (b1, Some v) ->
      forall fs', read_config b1 fs' config_name true = (b1, Some v))
  /\ (forall config_data backup timestamp b1 fs1 notes,
        write_config b fs config_name config_data backup timestamp
        = (b1, fs1, notes, true) ->
        forall fs', read_config b1 fs' config_name true
                    = (b1, Some (Py.py_dict config_data))).
Proof.
  split.
  - intros use_cache b1 v. apply cached_read_ignores_the_disk.
  - intros config_data backup timestamp b1 fs1 notes.
    apply cached_read_after_write.
Qed.

(** X15: a read that fails.  When [read_config] returns [None] the
    bridge, its cache included, is as before; a name that is neither
    cached nor on disk is such a read. *)
Theorem failed_read_keeps_the_cache (b : bridge) (fs : filesystem)
    (config_name : string) (use_cache : bool) :
  ((read_config b fs config_name use_cache).2 = None ->
     (read_config b fs config_name use_cache).1 = b)
  /\ (find_config_file fs config_name = None ->
      config_cache b !! config_name = None ->
      read_config b fs config_name use_cache = (b, None)).
Proof.
  unfold read_config. split.
  - destruct (if use_cache then config_cache b !! config_name else None); [done|].
    destruct (find_config_file fs config_name) as [ext|]; [|done].
    destruct (read_config_file fs config_name ext) as [loaded|]; [|done].
    by destruct (Py.has_copy loaded).
  - intros -> ->. by destruct use_cache.
Qed.

End Any_libraries.

Lemma write_config_touches_only_its_target_witness :
  backup_dir
    (write_config (H := Reference.libraries) Examples.watched_bridge
       Examples.backed_up "cfg" Examples.old_data false Examples.timestamp).1.1.2
  = backup_dir Examples.backed_up
  /\ config_cache
       (write_config (H := Reference.libraries) Examples.watched_bridge
          Examples.backed_up "cfg" Examples.old_data false
          Examples.timestamp).1.1.1 !! "profileA"
     = None.
Proof.
  destruct (write_config_touches_only_its_target (H := Reference.libraries)
              Examples.watched_bridge Examples.backed_up "cfg" Examples.old_data
              false Examples.timestamp eq_refl)
    as (_ & Hcache & _ & _ & Hbackups).
  split; [exact (Hbackups eq_refl)|].
  rewrite (Hcache "profileA"); [reflexivity|discriminate].
Defined.

Lemma failed_write_keeps_cache_and_files_witness :
  (write_config (H := Reference.libraries) Examples.watched_bridge
     Examples.ini_machine "profileA" Examples.profile true Examples.timestamp).1.1.1
  = Examples.watched_bridge.
Proof.
  apply (proj1 (failed_write_keeps_cache_and_files (H := Reference.libraries)
                  Examples.watched_bridge Examples.ini_machine "profileA"
                  Examples.profile true Examples.timestamp)).
  reflexivity.
Defined.

Lemma backup_holds_the_previous_content_witness :
  backup_dir
    (write_config (H := Reference.libraries) Examples.watched_bridge
       Examples.ini_machine "profileA" Examples.profile true
       Examples.timestamp).1.1.2
  !! "profileA_20250101_120000.ini"
  = Some (Reference.ini_document []).
Proof.
  apply (backup_holds_the_previous_content (H := Reference.libraries)
           Examples.watched_bridge Examples.ini_machine "profileA" ".ini"
           Examples.profile Examples.timestamp (Reference.ini_document [])
           eq_refl eq_refl eq_refl).
Defined.

Lemma cache_wins_over_the_disk_witness :
  read_config (H := Reference.libraries)
    (with_cache Examples.watched_bridge
       (<["cfg" := Py.py_dict Examples.new_data]>
          (config_cache Examples.watched_bridge)))
    Examples.empty_machine "cfg" true
  = (with_cache Examples.watched_bridge
       (<["cfg" := Py.py_dict Examples.new_data]>
          (config_cache Examples.watched_bridge)),
     Some (Py.py_dict Examples.new_data)).
Proof.
  eapply (proj2 (cache_wins_over_the_disk (H := Reference.libraries)
                   Examples.watched_bridge Examples.no_backups "cfg")
            Examples.new_data true Examples.timestamp).
  reflexivity.
Defined.

Lemma failed_read_keeps_the_cache_witness :
  read_config (H := Reference.libraries) Examples.watched_bridge
    Examples.empty_machine "missing" true
  = (Examples.watched_bridge, None).
Proof.
  apply (proj2 (failed_read_keeps_the_cache (H := Reference.libraries)
                  Examples.watched_bridge Examples.empty_machine "missing" true));
    reflexivity.
Defined.

End ConfigFileFacts.

(** ** Paths, listing, validation, watchers and restoring *)

Module ConfigToolsFacts.
Import ConfigurationBridge.

Lemma append_inj (s a b : string) : s +:+ a = s +:+ b -> a = b.
Proof. induction s as [|c s IH]; simpl; [done|]. intros [= Heq]. by apply IH. Qed.

Lemma length_append (a b : string) :
  String.length (a +:+ b) = String.length a + String.length b.
Proof. induction a as [|c a IH]; simpl; [done|]. by rewrite IH. Qed.

Lemma substring_whole (s : string) : String.substring 0 (String.length s) s = s.
Proof. induction s as [|c s IH]; simpl; [done|]. by rewrite IH. Qed.

Lemma substring_after (a b : string) :
  String.substring (String.length a) (String.length b) (a +:+ b) = b.
Proof. induction a as [|c a IH]; simpl; [apply substring_whole|exact IH]. Qed.

Lemma substring_before (a b : string) :
  String.substring 0 (String.length a) (a +:+ b) = a.
Proof.
  induction a as [|c a IH]; simpl; [by destruct b|]. by rewrite IH.
Qed.

Lemma rfind_dot_append (a b : string) : forall i last,
  Py.rfind_dot_from i (a +:+ b) last
  = Py.rfind_dot_from (i + String.length a) b (Py.rfind_dot_from i a last).
Proof.
  induction a as [|c a IH]; intros i last; simpl.
  - by rewrite Nat.add_0_r.
  - rewrite IH. f_equal. lia.
Qed.

Lemma rfind_dot_extension (ext : string) (k : nat) (last : option nat) :
  ext ∈ extensions -> Py.rfind_dot_from k ext last = Some k.
Proof.
  unfold extensions. rewrite !elem_of_cons, elem_of_nil.
  intros [->|[->|[->|[->|[->|[]]]]]]; reflexivity.
Qed.

Lemma extension_length (ext : string) :
  ext ∈ extensions -> 4 <= String.length ext /\ Py.lower ext = ext.
Proof.
  unfold extensions. rewrite !elem_of_cons, elem_of_nil.
  intros [->|[->|[->|[->|[->|[]]]]]]; simpl; split; (lia || reflexivity).
Qed.

(** [Py.path_suffix] and [Py.path_stem] on a file name that ends in
    one of the five extensions. *)
Lemma extension_suffix_and_stem (config_name ext : string) :
  ext ∈ extensions ->
  Py.path_suffix (config_name +:+ ext) = suffix config_name ext
  /\ Py.path_stem (config_name +:+ ext) = stem config_name ext.
Proof.
  intros Hext. destruct (extension_length ext Hext) as [Hlen _].
  unfold Py.path_suffix, Py.path_stem, Py.rfind_dot, suffix, stem.
  rewrite rfind_dot_append. simpl. rewrite (rfind_dot_extension ext _ _ Hext).
  rewrite length_append.
  destruct config_name as [|c rest]; [done|].
  change (String.eqb (String c rest) EmptyString) with false. cbv iota.
  remember (String c rest) as name eqn:Hname.
  assert (0 < String.length name) as Hpos by (subst name; simpl; lia).
  clear Hname.
  destruct (Nat.ltb_spec 0 (String.length name)) as [_|?]; [|lia].
  destruct (Nat.ltb_spec (String.length name)
              (String.length name + String.length ext - 1)) as [_|?]; [|lia].
  cbn [andb]. split.
  - replace (String.length name + String.length ext - String.length name)
      with (String.length ext) by lia.
    apply substring_after.
  - apply substring_before.
Qed.

Global Instance string_le_total : Total Py.string_le.
Proof. intros a b. apply String.leb_total. Qed.

Section Any_libraries.
Context `{Libraries}.

Lemma elem_of_get_config_list fs n :
  n ∈ get_config_list fs
  <-> exists file,
        is_Some (config_dir fs !! file)
        /\ Py.lower (Py.path_suffix file) ∈ extensions
        /\ Py.path_stem file = n.
Proof.
  unfold get_config_list. rewrite merge_sort_Permutation.
  rewrite list_elem_of_omap. split.
  - intros (file & Hin & Hkeep).
    apply list_elem_of_fmap in Hin as ([file' t] & -> & Hin).
    apply elem_of_map_to_list in Hin. simpl in *.
    exists file'. case_bool_decide; [|done]. injection Hkeep as <-. eauto.
  - intros (file & [t Ht] & Hsuffix & Hstem). exists file. split.
    + apply list_elem_of_fmap. exists (file, t). split; [done|].
      by apply elem_of_map_to_list.
    + rewrite bool_decide_eq_true_2 by done. by rewrite Hstem.
Qed.

(** X16: the format follows the extension.  For a logical name that is
    a single path component, the file [config_name + ext] is an entry
    of the configuration directory, and what the bridge dispatches on is
    [pathlib]'s suffix of that entry: the extension, and the name as the
    stem, except for the empty name, whose file is a dot file without
    suffix.  So the empty name can be neither written nor read:
    [write_config] returns [False] for it on every machine and caches
    nothing, and [read_config] finds no format for it.  Any other
    name that has no file yet is created as YAML. *)
Theorem suffix_and_stem_follow_pathlib (b : bridge) (fs : filesystem)
    (config_name : string) (config_data : Py.mapping) (backup : bool)
    (timestamp : string) :
  Py.plain_name config_name = true ->
  let out := write_config b fs config_name config_data backup timestamp in
  (forall ext,
      ext ∈ extensions ->
      Py.path_suffix (file_name config_name ext) = suffix config_name ext
      /\ Py.path_stem (file_name config_name ext) = stem config_name ext)
  /\ (config_name = EmptyString ->
      out.2 = false /\ out.1.1.1 = b /\ out.1.2 = []
      /\ read_config b fs config_name false = (b, None))
  /\ (config_name <> EmptyString ->
      forall t,
        find_config_file fs config_name = None ->
        can_mkdir fs = true ->
        file_name config_name ".yaml" ∉ read_only fs ->
        yaml_dump config_data = written t ->
        out.2 = true
        /\ config_dir out.1.1.2 !! file_name config_name ".yaml" = Some t
        /\ config_cache out.1.1.1 !! config_name = Some (Py.py_dict config_data)).
Proof.
  intros _ out. subst out. split; [|split].
  - intros ext Hext. apply (extension_suffix_and_stem config_name ext Hext).
  - intros ->. split; [|split; [|split]].
    + unfold write_config.
      destruct (target_file fs EmptyString) as [ext|]; [|done].
      unfold write_config_file. simpl.
      by destruct (bool_decide (file_name EmptyString ext ∈ read_only _)).
    + unfold write_config.
      destruct (target_file fs EmptyString) as [ext|]; [|done].
      unfold write_config_file. simpl.
      by destruct (bool_decide (file_name EmptyString ext ∈ read_only _)).
    + unfold write_config.
      destruct (target_file fs EmptyString) as [ext|]; [|done].
      unfold write_config_file. simpl.
      by destruct (bool_decide (file_name EmptyString ext ∈ read_only _)).
    + unfold read_config.
      destruct (find_config_file fs EmptyString) as [ext|]; [|done].
      unfold read_config_file. simpl.
      by destruct (config_dir fs !! _).
  - intros Hname t Hfind Hmkdir Hwritable Hdump.
    unfold write_config, target_file, create_config_file.
    rewrite Hfind, Hmkdir.
    assert (exists_ fs (file_name config_name ".yaml") = false) as Hnew.
    { unfold find_config_file in Hfind.
      apply (find_none _ _ Hfind ".yaml"). simpl. by left. }
    rewrite Hnew, andb_false_r.
    unfold write_config_file, suffix.
    destruct (String.eqb_spec config_name EmptyString) as [?|_]; [done|].
    rewrite bool_decide_eq_false_2 by done. simpl. rewrite Hdump. simpl.
    by rewrite !lookup_insert_eq.
Qed.

(** X17: on a configuration directory (every name in it is a single
    path component, as the entries that [iterdir] yields are),
    [get_config_list] is sorted and lists exactly the stems of the files
    that carry one of the five extensions (in any case); and it lists
    every logical name that is a single path component and that
    [write_config] has just written. *)
Theorem config_list_is_sorted_and_complete (fs : filesystem) :
  (forall file, is_Some (config_dir fs !! file) -> Py.plain_name file = true) ->
  Sorted Py.string_le (get_config_list fs)
  /\ (forall n,
        n ∈ get_config_list fs
        <-> exists file,
              is_Some (config_dir fs !! file)
              /\ Py.lower (Py.path_suffix file) ∈ extensions
              /\ Py.path_stem file = n)
  /\ (forall b config_name config_data backup timestamp b1 fs1 notes,
        Py.plain_name config_name = true ->
        write_config b fs config_name config_data backup timestamp
        = (b1, fs1, notes, true) ->
        config_name ∈ get_config_list fs1).
Proof.
  intros _.
  split; [apply Sorted_merge_sort; apply _|].
  split; [apply elem_of_get_config_list|].
  intros b config_name config_data backup timestamp b1 fs1 notes _ Hwrite.
  unfold write_config in Hwrite.
  destruct (target_file fs config_name) as [ext|] eqn:Htarget; [|done].
  assert (ext ∈ extensions) as Hext.
  { unfold target_file in Htarget.
    destruct (find_config_file fs config_name) as [found|] eqn:Hfind.
    - injection Htarget as ->. unfold find_config_file in Hfind.
      apply find_some in Hfind as [Hin _]. by apply list_elem_of_In.
    - unfold create_config_file in Htarget.
      destruct (can_mkdir fs); [|done]. injection Htarget as <-.
      unfold extensions. apply elem_of_cons. by left. }
  destruct (write_config_file _ config_name ext config_data) as [fs2 ok] eqn:Hfile.
  destruct ok; [|done]. injection Hwrite as _ <- _.
  assert (config_name <> EmptyString
          /\ is_Some (config_dir fs2 !! file_name config_name ext)) as [Hname Hthere].
  { unfold write_config_file in Hfile.
    destruct (bool_decide (file_name config_name ext ∈ read_only _)); [done|].
    unfold suffix in Hfile.
    destruct (String.eqb_spec config_name EmptyString) as [->|Hne].
    - simpl in Hfile. by injection Hfile.
    - split; [done|].
      destruct (bool_decide (Py.lower ext ∈ [".yaml"; ".yml"]));
        [destruct (yaml_dump config_data); [|done]|
         destruct (String.eqb (Py.lower ext) ".json");
           [destruct (json_dump config_data); [|done]|
            destruct (bool_decide (Py.lower ext ∈ [".ini"; ".cfg"]));
              [destruct (fill_parser ConfigParser config_data); [|done]|done]]];
        injection Hfile as <-; simpl; rewrite lookup_insert_eq; eauto. }
  apply elem_of_get_config_list. exists (file_name config_name ext).
  destruct (extension_suffix_and_stem config_name ext Hext) as [Hsuffix Hstem].
  unfold file_name. rewrite Hsuffix, Hstem. unfold suffix, stem.
  destruct (String.eqb_spec config_name EmptyString); [done|].
  split; [exact Hthere|]. split; [|done].
  by rewrite (proj2 (extension_length ext Hext)).
Qed.

(** X18: [validate_config] never rejects a dictionary: the result is
    valid and has no errors, whatever the dictionary holds.  Anything
    else is invalid with the one error.  A key is warned about as empty
    exactly when its value is the empty string, and the missing-version
    warning appears exactly for the name [config] without a [version]
    key. *)
Theorem validation_only_warns (config_name : string) :
  (forall items,
      valid (validate_config config_name (Py.py_dict items)) = true
      /\ errors (validate_config config_name (Py.py_dict items)) = []
      /\ (forall key,
            "Empty value for key: " +:+ key
              ∈ warnings (validate_config config_name (Py.py_dict items))
            <-> (key, Py.py_str EmptyString) ∈ items)
      /\ ("Missing recommended field: version"
            ∈ warnings (validate_config config_name (Py.py_dict items))
          <-> config_name = "config" /\ "version" ∉ map fst items))
  /\ (forall v,
        (forall items, v <> Py.py_dict items) ->
        validate_config config_name v
        = {| valid := false; errors := ["Configuration must be a dictionary"];
             warnings := []; suggestions := [] |}).
Proof.
  split.
  - intros items. simpl. split; [done|]. split; [done|].
    assert (forall w, w ∈ validate_common_issues items
                      <-> exists key, w = "Empty value for key: " +:+ key
                                      /\ (key, Py.py_str EmptyString) ∈ items)
      as Hcommon.
    { intros w. unfold validate_common_issues. rewrite list_elem_of_In, in_flat_map.
      split.
      - intros ([key v] & Hin & Hw). apply list_elem_of_In in Hin. simpl in Hw.
        destruct v as [| | |s| |]; try done.
        destruct (String.eqb_spec s EmptyString) as [->|]; [|done].
        destruct Hw as [<-|[]]. eauto.
      - intros (key & -> & Hin). exists (key, Py.py_str EmptyString).
        split; [by apply list_elem_of_In|]. simpl. by left. }
    assert (forall w, w ∈ (if String.eqb config_name "config"
                           then validate_main_config items else [])
                      <-> w = "Missing recommended field: version"
                          /\ config_name = "config" /\ "version" ∉ map fst items)
      as Hmain.
    { intros w. destruct (String.eqb_spec config_name "config") as [->|Hne].
      - unfold validate_main_config. simpl. rewrite app_nil_r.
        case_bool_decide as Hin.
        + rewrite elem_of_nil. tauto.
        + rewrite list_elem_of_singleton. tauto.
      - rewrite elem_of_nil. tauto. }
    split.
    + intros key. rewrite elem_of_app, Hmain, Hcommon. split.
      * intros [[Heq _]|(key' & Heq & Hin)]; [discriminate|].
        by apply append_inj in Heq as ->.
      * intros Hin. right. eauto.
    + rewrite elem_of_app, Hmain, Hcommon. split.
      * intros [[_ ?]|(key & Heq & _)]; [done|discriminate].
      * intros ?. by left.
  - intros v Hnot. destruct v; try reflexivity. by destruct (Hnot items).
Qed.

Lemma validation_only_warns_witness :
  "Empty value for key: theme"
    ∈ warnings (validate_config "settings"
                  (Py.py_dict [("theme", Py.py_str EmptyString)])).
Proof.
  apply (proj1 (validation_only_warns "settings")
           [("theme", Py.py_str EmptyString)]).
  apply elem_of_cons. by left.
Defined.

(** X19: watchers.  After a [start_monitoring] that succeeds, a
    [write_config] of the name notifies the new callback and no other;
    after [stop_monitoring] it notifies nobody.  A name without a file
    cannot be monitored, and a restart whose observer fails to start
    leaves the name without the watcher it had. *)
Theorem watcher_follows_start_and_stop (b : bridge) (fs : filesystem)
    (config_name : string) (callback observer : nat)
    (config_data : Py.mapping) :
  (forall ext,
      find_config_file fs config_name = Some ext ->
      let b1 := (start_monitoring b fs config_name callback observer true).1 in
      notify_config_change b1 config_name config_data
      = [change_callback callback config_name config_data]
      /\ observers b1 !! config_name = Some observer
      /\ (start_monitoring b fs config_name callback observer true).2 = true
      /\ config_cache b1 = config_cache b)
  /\ notify_config_change (stop_monitoring b config_name) config_name config_data = []
  /\ (forall started,
        find_config_file fs config_name = None ->
        start_monitoring b fs config_name callback observer started = (b, false))
  /\ (forall ext,
        find_config_file fs config_name = Some ext ->
        is_Some (observers b !! config_name) ->
        start_monitoring b fs config_name callback observer false
        = (stop_monitoring b config_name, false)).
Proof.
  split; [|split; [|split]].
  - intros ext Hfind b1. subst b1. unfold start_monitoring, notify_config_change.
    rewrite Hfind. simpl. rewrite !lookup_insert_eq.
    repeat split. by case_bool_decide.
  - unfold stop_monitoring, notify_config_change. simpl.
    by rewrite lookup_delete_eq.
  - intros started Hfind. unfold start_monitoring. by rewrite Hfind.
  - intros ext Hfind Hsome. unfold start_monitoring. rewrite Hfind.
    by rewrite bool_decide_eq_true_2.
Qed.

(** X20: restoring a backup.  When the backup and the target exist, the
    target can be written and the backup is not the one being written
    in this call, [restore_backup] returns [True], the target holds the
    content of the backup, the cache entry of the name is dropped so that
    the next read goes to the file, and the content the target had is
    kept as a new backup if the backup directory takes files. *)
Theorem restore_backup_restores (b : bridge) (fs : filesystem)
    (config_name backup_name timestamp ext : string) (content current : text) :
  backup_dir fs !! backup_name = Some content ->
  find_config_file fs config_name = Some ext ->
  config_dir fs !! file_name config_name ext = Some current ->
  file_name config_name ext ∉ read_only fs ->
  let new_backup :=
    stem config_name ext +:+ "_" +:+ timestamp +:+ suffix config_name ext in
  backup_name <> new_backup ->
  let out := restore_backup b fs config_name backup_name timestamp in
  out.2 = true
  /\ config_dir out.1.2 !! file_name config_name ext = Some content
  /\ config_cache out.1.1 !! config_name = None
  /\ backup_dir out.1.2 !! backup_name = Some content
  /\ (backups_writable fs = true -> backup_dir out.1.2 !! new_backup = Some current)
  /\ (forall q, q <> file_name config_name ext ->
        config_dir out.1.2 !! q = config_dir fs !! q).
Proof.
  intros Hbackup Hfind Hcurrent Hwritable new_backup Hother out. subst out.
  unfold restore_backup. rewrite Hbackup, Hfind.
  unfold create_backup. rewrite Hcurrent. fold new_backup.
  destruct (backups_writable fs) eqn:Hbw; simpl.
  - rewrite lookup_insert_ne by done. rewrite Hbackup.
    rewrite bool_decide_eq_false_2 by done. simpl.
    rewrite !lookup_insert_eq, lookup_delete_eq, lookup_insert_ne by done.
    repeat split; try done. intros; by rewrite lookup_insert_ne.
  - rewrite Hbackup. rewrite bool_decide_eq_false_2 by done. simpl.
    rewrite lookup_insert_eq, lookup_delete_eq.
    repeat split; try done. intros; by rewrite lookup_insert_ne.
Qed.

(** X21: when [restore_backup] restores nothing.  The names are single
    path components.  Without the target the call returns [False] and
    changes nothing, whatever the backup name; so it does for the name
    of a backup file that is not there.  An empty backup name (or [.]
    or [..]) names a directory, which exists: the call goes on, keeps
    the current content as a new backup if the backup directory takes
    files, and fails only then; it returns [False] with the cache and
    the configuration files as they were and the new backup left
    behind.  Asked to restore the very backup that this call writes
    (same name, same second), it first replaces that backup by the
    current content and then copies it back: the call returns [True] and
    the target is unchanged. *)
Theorem restore_backup_edge_cases (b : bridge) (fs : filesystem)
    (config_name backup_name timestamp : string) :
  Py.plain_name config_name = true ->
  Py.plain_name backup_name = true ->
  let out := restore_backup b fs config_name backup_name timestamp in
  (find_config_file fs config_name = None -> out = (b, fs, false))
  /\ (Py.dot_name backup_name = false ->
      backup_dir fs !! backup_name = None -> out = (b, fs, false))
  /\ (forall ext current,
        Py.dot_name backup_name = true ->
        backup_dir fs !! backup_name = None ->
        find_config_file fs config_name = Some ext ->
        config_dir fs !! file_name config_name ext = Some current ->
        out.2 = false
        /\ out.1.1 = b
        /\ config_dir out.1.2 = config_dir fs
        /\ (backups_writable fs = true ->
            backup_dir out.1.2
            = <[stem config_name ext +:+ "_" +:+ timestamp
                +:+ suffix config_name ext := current]> (backup_dir fs))
        /\ (backups_writable fs = false -> out.1.2 = fs))
  /\ (forall ext current,
        is_Some (backup_dir fs !! backup_name) ->
        find_config_file fs config_name = Some ext ->
        config_dir fs !! file_name config_name ext = Some current ->
        file_name config_name ext ∉ read_only fs ->
        backups_writable fs = true ->
        backup_name
        = stem config_name ext +:+ "_" +:+ timestamp +:+ suffix config_name ext ->
        out.2 = true
        /\ config_dir out.1.2 = config_dir fs
        /\ backup_dir out.1.2 !! backup_name = Some current).
Proof.
  intros _ _ out. subst out. split; [|split; [|split]].
  - intros Hnone. unfold restore_backup. rewrite Hnone.
    by destruct (backup_dir fs !! backup_name), (Py.dot_name backup_name).
  - intros Hdot Hnone. unfold restore_backup. by rewrite Hnone, Hdot.
  - intros ext current Hdot Hnone Hfind Hcurrent.
    unfold restore_backup. rewrite Hnone, Hdot, Hfind.
    unfold create_backup. rewrite Hcurrent.
    destruct (backups_writable fs); simpl; repeat split; done.
  - intros ext current [content Hbackup] Hfind Hcurrent Hwritable Hbw Hname.
    unfold restore_backup. rewrite Hbackup, Hfind.
    unfold create_backup. rewrite Hcurrent, Hbw. rewrite <- Hname. simpl.
    rewrite lookup_insert_eq. rewrite bool_decide_eq_false_2 by done. simpl.
    rewrite lookup_insert_eq. repeat split; try done.
    by apply insert_id.
Qed.

End Any_libraries.

Lemma suffix_and_stem_follow_pathlib_witness :
  (Py.path_suffix "my.profile.yaml" = ".yaml"
   /\ Py.path_stem "my.profile.yaml" = "my.profile")
  /\ config_dir
       (write_config (H := Reference.libraries) Examples.watched_bridge
          Examples.empty_machine "my.profile" Examples.profile true
          Examples.timestamp).1.1.2 !! "my.profile.yaml"
     = Some (Reference.yaml_document (Py.py_dict Examples.profile)).
Proof.
  destruct (suffix_and_stem_follow_pathlib (H := Reference.libraries)
              Examples.watched_bridge Examples.empty_machine "my.profile"
              Examples.profile true Examples.timestamp eq_refl)
    as (Hpath & _ & Hnew).
  split.
  - apply (Hpath ".yaml"). unfold extensions. apply elem_of_cons. by left.
  - apply (Hnew ltac:(discriminate)
             (Reference.yaml_document (Py.py_dict Examples.profile))).
    + reflexivity.
    + reflexivity.
    + apply not_elem_of_empty.
    + reflexivity.
Defined.

Lemma config_list_is_sorted_and_complete_witness :
  "profileA"
    ∈ get_config_list (H := Reference.libraries)
        (put Examples.empty_machine "profileA.yaml"
           (Reference.yaml_document (Py.py_dict Examples.profile))).
Proof.
  assert (forall file,
             is_Some (config_dir Examples.empty_machine !! file) ->
             Py.plain_name file = true) as Hflat.
  { intros file [t Ht]. simpl in Ht. by rewrite lookup_empty in Ht. }
  eapply (proj2 (proj2 (config_list_is_sorted_and_complete
                          (H := Reference.libraries) Examples.empty_machine Hflat))
            Examples.watched_bridge "profileA" Examples.profile true
            Examples.timestamp).
  - reflexivity.
  - reflexivity.
Defined.

Lemma restore_backup_restores_witness :
  config_dir
    (restore_backup (H := Reference.libraries) Examples.watched_bridge
       Examples.backed_up "cfg" "cfg_20241231_235959.yaml" Examples.timestamp).1.2
  !! "cfg.yaml"
  = Some (Reference.yaml_document (Py.py_dict Examples.old_data)).
Proof.
  apply (restore_backup_restores (H := Reference.libraries)
           Examples.watched_bridge Examples.backed_up "cfg"
           "cfg_20241231_235959.yaml" Examples.timestamp ".yaml"
           (Reference.yaml_document (Py.py_dict Examples.old_data))
           (Reference.yaml_document (Py.py_dict Examples.new_data))
           eq_refl eq_refl eq_refl).
  - apply not_elem_of_empty.
  - discriminate.
Defined.

Lemma restore_backup_edge_cases_witness :
  (restore_backup (H := Reference.libraries) Examples.watched_bridge
     Examples.backed_up "cfg" EmptyString Examples.timestamp).2 = false
  /\ backup_dir
       (restore_backup (H := Reference.libraries) Examples.watched_bridge
          Examples.backed_up "cfg" EmptyString Examples.timestamp).1.2
     !! "cfg_20250101_120000.yaml"
     = Some (Reference.yaml_document (Py.py_dict Examples.new_data)).
Proof.
  destruct (restore_backup_edge_cases (H := Reference.libraries)
              Examples.watched_bridge Examples.backed_up "cfg" EmptyString
              Examples.timestamp eq_refl eq_refl)
    as (_ & _ & Hdirectory & _).
  destruct (Hdirectory ".yaml"
              (Reference.yaml_document (Py.py_dict Examples.new_data))
              eq_refl eq_refl eq_refl eq_refl)
    as (Hfalse & _ & _ & Hkept & _).
  split; [exact Hfalse|].
  rewrite (Hkept eq_refl). apply lookup_insert_eq.
Defined.

Lemma watcher_follows_start_and_stop_witness :
  notify_config_change
    (start_monitoring (H := Reference.libraries) Examples.watched_bridge
       Examples.no_backups "cfg" 9 4 true).1 "cfg" Examples.new_data
  = [change_callback 9 "cfg" Examples.new_data].
Proof.
  apply (proj1 (watcher_follows_start_and_stop (H := Reference.libraries)
                  Examples.watched_bridge Examples.no_backups "cfg" 9 4
                  Examples.new_data) ".yaml").
  reflexivity.
Defined.

End ConfigToolsFacts.

(** ** More on [ProcessTracker] *)

Module ProcessScanFacts.
Import ProcessTracker.

Lemma handle_found_first t x others :
  handle_found_processes t (x :: others) = handle_found_processes t [x].
Proof. by destruct x as [proc [new_pid proc_name]]. Qed.

(** With every name readable the matches are collected in listing
    order, so the first match of the listing comes first. *)
Lemma match_processes_first targets (listing : list (process * proc_info)) :
  Forall (fun entry => is_Some (info_name entry.2)) listing ->
  exists found,
    match_processes targets listing = Some found
    /\ match List.find (matches targets) listing with
       | Some entry =>
           exists n others,
             info_name entry.2 = Some n
             /\ found = (entry.1, (info_pid entry.2, n)) :: others
       | None => found = []
       end.
Proof.
  induction 1 as [|[proc info] rest [n Hn] _ (found & Hfound & Hfirst)]; simpl in *.
  - by exists [].
  - rewrite Hn, Hfound. simpl. unfold matches at 1. simpl. rewrite Hn.
    destruct (is_target targets (Py.lower n)).
    + eexists. split; [reflexivity|]. by exists n, found.
    + exists found. split; [reflexivity|exact Hfirst].
Qed.

(** A scan with readable names and no match is a scan that found
    nothing. *)
Lemma scan_without_match (t : tracker) (listing : list (process * proc_info)) :
  Forall (fun entry => is_Some (info_name entry.2)) listing ->
  List.find (matches (target_processes t)) listing = None ->
  scan_processes t listing = handle_no_processes t.
Proof.
  intros Hreadable Hnone.
  destruct (match_processes_first (target_processes t) listing Hreadable)
    as (found & Hfound & Hfirst).
  unfold scan_processes. rewrite Hfound. rewrite Hnone in Hfirst. by subst found.
Qed.

(** X22: which process a scan follows.  When every listed name can be
    read, the scan acts on the first entry of the listing whose
    lower-cased name contains a lower-cased target, and on nothing else
    of the listing; with no such entry it acts as a scan that found
    nothing. *)
Theorem scan_follows_the_first_match (t : tracker)
    (listing : list (process * proc_info)) :
  Forall (fun entry => is_Some (info_name entry.2)) listing ->
  match List.find (matches (target_processes t)) listing with
  | Some entry =>
      exists n,
        info_name entry.2 = Some n
        /\ scan_processes t listing
           = handle_found_processes t [(entry.1, (info_pid entry.2, n))]
  | None => scan_processes t listing = handle_no_processes t
  end.
Proof.
  intros Hreadable.
  destruct (match_processes_first (target_processes t) listing Hreadable)
    as (found & Hfound & Hfirst).
  unfold scan_processes. rewrite Hfound.
  destruct (List.find (matches (target_processes t)) listing) as [entry|].
  - destruct Hfirst as (n & others & Hn & ->). exists n. split; [exact Hn|].
    apply handle_found_first.
  - by subst found.
Qed.

Lemma scan_follows_the_first_match_witness :
  exists n,
    info_name (Examples.vanishing_process,
               {| info_pid := 2; info_name := Some "RF4.exe" |}).2 = Some n
    /\ scan_processes Examples.tracking_first Examples.second_scan
       = handle_found_processes Examples.tracking_first
           [(Examples.vanishing_process, (2%Z, n))].
Proof.
  apply (scan_follows_the_first_match Examples.tracking_first Examples.second_scan).
  repeat constructor. by eexists.
Defined.

(** X23: one unreadable name stops the scan.  If psutil could not read
    the name of any one listed process, the scan changes nothing and
    emits nothing, also when the game is in the listing or the tracked
    process is gone. *)
Theorem unreadable_name_aborts_the_scan (t : tracker)
    (listing : list (process * proc_info)) :
  Exists (fun entry => info_name entry.2 = None) listing ->
  scan_processes t listing = (t, []).
Proof.
  intros Hbad. unfold scan_processes.
  assert (match_processes (target_processes t) listing = None) as ->; [|done].
  induction listing as [|[proc info] rest IH]; [by apply Exists_nil in Hbad|].
  simpl. destruct (info_name info) as [n|] eqn:Hn; [|done].
  apply Exists_cons in Hbad as [Hbad|Hbad]; [simpl in Hbad; congruence|].
  by rewrite IH.
Qed.

Lemma unreadable_name_aborts_the_scan_witness :
  scan_processes Examples.tracking_first
    (Examples.second_scan
     ++ [(Examples.first_process, {| info_pid := 7; info_name := None |})])
  = (Examples.tracking_first, []).
Proof.
  apply (unreadable_name_aborts_the_scan Examples.tracking_first).
  apply Exists_app. right. by constructor.
Defined.

(** X24: losing the process.  A scan with readable names and no match,
    on a tracker that follows pid [p], emits [process_lost p] and then
    the status ["not_running"], forgets the process, and a second such
    scan emits nothing. *)
Theorem lost_process_is_reported_once (t : tracker)
    (listing : list (process * proc_info)) (p : Z) :
  Forall (fun entry => is_Some (info_name entry.2)) listing ->
  List.find (matches (target_processes t)) listing = None ->
  current_pid t = Some p ->
  scan_processes t listing
  = (with_current t None None ∅,
     [process_lost p; status_changed "not_running" ∅])
  /\ is_game_running (scan_processes t listing).1 = false
  /\ scan_processes (scan_processes t listing).1 listing
     = ((scan_processes t listing).1, []).
Proof.
  intros Hreadable Hnone Hpid.
  pose proof (scan_without_match t listing Hreadable Hnone) as Hscan.
  assert (scan_processes t listing
          = (with_current t None None ∅,
             [process_lost p; status_changed "not_running" ∅])) as Hfirst.
  { rewrite Hscan. unfold handle_no_processes. by rewrite Hpid. }
  rewrite Hfirst. repeat split.
  apply (scan_without_match (with_current t None None ∅) listing Hreadable).
  exact Hnone.
Qed.

Lemma lost_process_is_reported_once_witness :
  scan_processes Examples.tracking_first []
  = (with_current Examples.tracking_first None None ∅,
     [process_lost 1; status_changed "not_running" ∅]).
Proof.
  apply (lost_process_is_reported_once Examples.tracking_first [] 1);
    [constructor|reflexivity|reflexivity].
Defined.

(** X25: no flapping.  While the first match keeps the pid the tracker
    follows, no [process_found] is emitted and the stored process object,
    not the listed one, is asked for its status; the only lifecycle
    signal possible is [process_lost] of that pid, when the status query
    raises [NoSuchProcess] or [AccessDenied]. *)
Theorem same_pid_emits_no_found (t : tracker) (tracked listed : process)
    (p : Z) (proc_name : string) (others : list (process * (Z * string))) :
  current_pid t = Some p ->
  current_process t = Some tracked ->
  filter is_lifecycle
    (handle_found_processes t ((listed, (p, proc_name)) :: others)).2
  = lost_while_refreshing tracked p.
Proof.
  intros Hpid Hproc. unfold handle_found_processes.
  rewrite bool_decide_eq_true_2 by done.
  unfold update_process_status, lost_while_refreshing. rewrite Hproc.
  destruct (is_running tracked); [|done].
  destruct (status tracked) as [s|[]]; simpl; try done.
  - apply ProcessTrackerFacts.callbacks_are_not_lifecycle.
  - unfold handle_no_processes. simpl. by rewrite Hpid.
  - unfold handle_no_processes. simpl. by rewrite Hpid.
Qed.

Lemma same_pid_emits_no_found_witness :
  filter is_lifecycle
    (handle_found_processes Examples.tracking_first
       [(Examples.vanishing_process, (1%Z, "rf4.exe"))]).2
  = [].
Proof.
  apply (same_pid_emits_no_found Examples.tracking_first Examples.first_process
           Examples.vanishing_process 1 "rf4.exe" []);
    reflexivity.
Defined.

(** X26: the first detection.  A tracker that follows nothing emits
    [process_found] for the first match as its first signal, with no
    [process_lost] before it. *)
Theorem first_detection_emits_found (t : tracker) (proc : process) (B : Z)
    (name_B : string) (others : list (process * (Z * string))) :
  current_pid t = None ->
  exists later,
    (handle_found_processes t ((proc, (B, name_B)) :: others)).2
    = process_found B name_B :: later
    /\ filter is_lifecycle later = lost_while_refreshing proc B.
Proof.
  intros Hpid. unfold handle_found_processes. rewrite Hpid.
  rewrite bool_decide_eq_false_2 by done.
  pose proof (ProcessTrackerFacts.refresh_lifecycle t proc B
                (get_detailed_process_info proc)) as Hr.
  destruct (update_process_status
              (with_current t (Some B) (Some proc) (get_detailed_process_info proc)))
    as [t2 updated].
  simpl in *. by exists updated.
Qed.

Lemma first_detection_emits_found_witness :
  exists later,
    (handle_found_processes init [(Examples.first_process, (1%Z, "rf4.exe"))]).2
    = process_found 1 "rf4.exe" :: later
    /\ filter is_lifecycle later = [].
Proof.
  apply (first_detection_emits_found init Examples.first_process 1 "rf4.exe" []).
  reflexivity.
Defined.

End ProcessScanFacts.

(** ** Callback lists *)

Module CallbackFacts.

Lemma list_remove_spec {A} `{EqDecision A} (x : A) (l : list A) :
  NoDup l ->
  NoDup (Py.list_remove x l)
  /\ forall y, y ∈ Py.list_remove x l <-> y ∈ l /\ y <> x.
Proof.
  induction 1 as [|z rest Hz Hnodup [IH1 IH2]]; simpl.
  - split; [constructor|]. intros y. rewrite elem_of_nil. tauto.
  - destruct (decide (z = x)) as [->|Hne].
    + split; [done|]. intros y. rewrite elem_of_cons. split.
      * intros Hy. split; [by right|]. by intros ->.
      * intros [[->|Hy] Hne]; done.
    + split.
      * constructor; [|done]. rewrite IH2. tauto.
      * intros y. rewrite !elem_of_cons, IH2. split.
        -- intros [->|[? ?]]; [by split; [left|]|by split; [right|]].
        -- intros [[->|?] ?]; [by left|by right].
Qed.

Lemma append_new_spec {A} `{EqDecision A} (x : A) (l : list A) :
  (NoDup l -> NoDup (Py.append_new x l))
  /\ forall y, y ∈ Py.append_new x l <-> y ∈ l \/ y = x.
Proof.
  unfold Py.append_new. case_bool_decide as Hin.
  - split; [done|]. intros y. split; [by left|]. by intros [?| ->].
  - split.
    + intros Hnodup. apply NoDup_app. split; [done|].
      split; [|apply NoDup_singleton].
      intros y Hy Hy'. apply list_elem_of_singleton in Hy'. by subst.
    + intros y. by rewrite elem_of_app, list_elem_of_singleton.
Qed.

Lemma remove_present_spec {A} `{EqDecision A} (x : A) (l : list A) :
  NoDup l ->
  NoDup (Py.remove_present x l)
  /\ forall y, y ∈ Py.remove_present x l <-> y ∈ l /\ y <> x.
Proof.
  intros Hnodup. unfold Py.remove_present. case_bool_decide as Hin.
  - by apply list_remove_spec.
  - split; [done|]. intros y. split; [|tauto].
    intros Hy. split; [done|]. by intros ->.
Qed.

(** X27: the callback lists of the tracker, of the connection monitor
    and of the game monitor never hold a callback twice.  Adding keeps a
    list without repetitions free of them and puts the callback in it;
    removing takes the callback out and keeps the others. *)
Theorem callbacks_are_registered_once (callback : nat) :
  (forall t : ProcessTracker.tracker,
      NoDup (ProcessTracker.status_callbacks t) ->
      NoDup (ProcessTracker.status_callbacks
               (ProcessTracker.add_status_callback t callback))
      /\ callback ∈ ProcessTracker.status_callbacks
                      (ProcessTracker.add_status_callback t callback)
      /\ NoDup (ProcessTracker.status_callbacks
                  (ProcessTracker.remove_status_callback t callback))
      /\ (forall other,
            other ∈ ProcessTracker.status_callbacks
                      (ProcessTracker.remove_status_callback t callback)
            <-> other ∈ ProcessTracker.status_callbacks t /\ other <> callback))
  /\ (forall m : ConnectionMonitor.monitor,
        NoDup (ConnectionMonitor.status_callbacks m) ->
        NoDup (ConnectionMonitor.status_callbacks
                 (ConnectionMonitor.add_status_callback m callback))
        /\ callback ∈ ConnectionMonitor.status_callbacks
                        (ConnectionMonitor.add_status_callback m callback)
        /\ NoDup (ConnectionMonitor.status_callbacks
                    (ConnectionMonitor.remove_status_callback m callback))
        /\ (forall other,
              other ∈ ConnectionMonitor.status_callbacks
                        (ConnectionMonitor.remove_status_callback m callback)
              <-> other ∈ ConnectionMonitor.status_callbacks m /\ other <> callback))
  /\ (forall g : GameMonitor.monitor,
        NoDup (GameMonitor.alert_callbacks g) ->
        NoDup (GameMonitor.alert_callbacks
                 (GameMonitor.add_alert_callback g callback))
        /\ callback ∈ GameMonitor.alert_callbacks
                        (GameMonitor.add_alert_callback g callback)).
Proof.
  split; [|split].
  - intros t Hnodup. simpl.
    destruct (append_new_spec callback (ProcessTracker.status_callbacks t))
      as [Ha1 Ha2].
    destruct (remove_present_spec callback (ProcessTracker.status_callbacks t)
                Hnodup) as [Hr1 Hr2].
    exact (conj (Ha1 Hnodup)
             (conj (proj2 (Ha2 callback) (or_intror eq_refl)) (conj Hr1 Hr2))).
  - intros m Hnodup. simpl.
    destruct (append_new_spec callback (ConnectionMonitor.status_callbacks m))
      as [Ha1 Ha2].
    destruct (remove_present_spec callback (ConnectionMonitor.status_callbacks m)
                Hnodup) as [Hr1 Hr2].
    exact (conj (Ha1 Hnodup)
             (conj (proj2 (Ha2 callback) (or_intror eq_refl)) (conj Hr1 Hr2))).
  - intros g Hnodup. simpl.
    destruct (append_new_spec callback (GameMonitor.alert_callbacks g))
      as [Ha1 Ha2].
    split; [by apply Ha1|apply Ha2; by right].
Qed.

Lemma callbacks_are_registered_once_witness :
  NoDup (ProcessTracker.status_callbacks
           (ProcessTracker.add_status_callback
              (ProcessTracker.add_status_callback ProcessTracker.init 4) 4)).
Proof.
  apply (proj1 (callbacks_are_registered_once 4)
           (ProcessTracker.add_status_callback ProcessTracker.init 4)).
  vm_compute. apply NoDup_singleton.
Defined.

End CallbackFacts.

(** ** More on [ConnectionMonitor] *)

Module ConnectionTickFacts.
Import ConnectionMonitor.

(** X28: what a tick emits.  After a tick the monitor is connected
    exactly when a basic target succeeded.  The tick emits a transition
    signal exactly when that differs from before: [connection_established]
    with ["game_servers"] if a game server was reachable and ["internet"]
    otherwise, or [connection_lost "internet_disconnected"].  Then comes
    one [connection_status_changed], then each status callback once. *)
Theorem tick_follows_the_probe (m : monitor) (t : Q)
    (sockets : list ((string * Z) * socket_attempt))
    (servers : list (string * server_attempt)) :
  let now := Py.truthy (successes sockets) in
  let out := check_connection m t sockets servers in
  let info :=
    {| s_connected := now;
       s_quality := assess_connection_quality (probe sockets servers);
       s_last_check := t;
       s_details := probe sockets servers |} in
  is_connected out.1 = now
  /\ last_check_time out.1 = t
  /\ out.2
     = (if eqb now (is_connected m) then []
        else [if now
              then connection_established
                     (if Py.truthy (reachable_servers (test_game_servers servers))
                      then "game_servers" else "internet")
              else connection_lost "internet_disconnected"])
       ++ connection_status_changed
            (if now then "connected" else "disconnected") info
          :: map (fun cb => status_callback cb now info) (status_callbacks m).
Proof.
  intros now out info. subst out info.
  destruct (ConnectionMonitorFacts.internet_of_successes sockets) as [Hc _].
  fold now in Hc.
  unfold check_connection.
  assert (connected (internet (probe sockets servers)) = now) as Hp by exact Hc.
  rewrite Hp. unfold handle_connection_change.
  destruct now eqn:Hnow, (is_connected m) eqn:Hm; simpl; rewrite ?Hm; simpl;
    rewrite ?Hp, ?Hc; simpl; rewrite ?Hm; repeat split; reflexivity.
Qed.

End ConnectionTickFacts.

(** ** More on [GameMonitor] *)

Module GameStatusFacts.
Import GameMonitor.

(** X29: what a slot does.  Each delivery sets the flag of its kind
    (found and lost the running flag; established, lost and status
    changed the connection flag) and leaves the other flag alone.  The
    last signal is the one [game_status_changed], carrying the table
    entry of the flags after the delivery, those flags and the clock
    reading.  Before it come, for found, lost, established and
    connection lost and only while alerts are enabled, the alert of that
    very kind with its message and then each alert callback, once, in
    registration order, with the same kind and message; the two status
    deliveries raise no alert. *)
Theorem delivery_sets_flags_then_reports (g : monitor) (d : delivery) (now : Q) :
  let running := running_after (game_running g) d in
  let active := active_after (connection_active g) d in
  let alert :=
    match d with
    | process_found pid process_name =>
        Some ("process_found",
              "Game process found: " +:+ process_name
              +:+ " (PID: " +:+ pretty pid +:+ ")")
    | process_lost pid =>
        Some ("process_lost", "Game process lost (PID: " +:+ pretty pid +:+ ")")
    | connection_established connection_type =>
        Some ("connection_established",
              "Connection established: " +:+ connection_type)
    | connection_lost reason =>
        Some ("connection_lost", "Connection lost: " +:+ reason)
    | process_status_changed | connection_status_changed _ => None
    end in
  game_running (deliver g d now).1 = running
  /\ connection_active (deliver g d now).1 = active
  /\ alert_callbacks (deliver g d now).1 = alert_callbacks g
  /\ exists info,
       (deliver g d now).2
       = match alert with
         | Some (alert_type, message) =>
             if alerts_enabled g
             then alert_triggered alert_type message
                  :: map (fun cb => alert_callback cb alert_type message)
                       (alert_callbacks g)
             else []
         | None => []
         end
         ++ [game_status_changed (overall_table running active) info]
       /\ overall_status info = overall_table running active
       /\ si_game_running info = running
       /\ si_connection_active info = active
       /\ timestamp info = now.
Proof.
  intros running active alert. subst running active alert.
  assert (forall running active alert_type message,
             game_running (handle g running active alert_type message now).1
             = running
             /\ connection_active
                  (handle g running active alert_type message now).1 = active
             /\ alert_callbacks (handle g running active alert_type message now).1
                = alert_callbacks g
             /\ exists info,
                  (handle g running active alert_type message now).2
                  = (if alerts_enabled g
                     then alert_triggered alert_type message
                          :: map (fun cb => alert_callback cb alert_type message)
                               (alert_callbacks g)
                     else [])
                    ++ [game_status_changed (overall_table running active) info]
                  /\ overall_status info = overall_table running active
                  /\ si_game_running info = running
                  /\ si_connection_active info = active
                  /\ timestamp info = now) as Hhandle.
  { intros running active alert_type message.
    unfold handle, update_status, trigger_alert, set_flags.
    cbn [fst snd game_running connection_active alert_callbacks alerts_enabled].
    rewrite GameMonitorFacts.determine_overall_table.
    repeat split. eexists. repeat split. }
  destruct d; unfold deliver, running_after, active_after, on_process_found,
    on_process_lost, on_process_status_changed, on_connection_established,
    on_connection_lost, on_connection_status_changed.
  - apply Hhandle.
  - apply Hhandle.
  - unfold update_status. cbn [fst snd game_running connection_active alert_callbacks].
    rewrite GameMonitorFacts.determine_overall_table.
    repeat split. eexists. repeat split.
  - apply Hhandle.
  - apply Hhandle.
  - unfold update_status, set_flags.
    cbn [fst snd game_running connection_active alert_callbacks].
    rewrite GameMonitorFacts.determine_overall_table.
    repeat split. eexists. repeat split.
Qed.

Lemma log_status_data_length history info :
  length history <= 1000 ->
  length (log_status_data history info) = min 1000 (S (length history)).
Proof.
  intros Hlen. unfold log_status_data, max_history.
  assert (length (history ++ [info]) = S (length history)) as Happ
    by (rewrite length_app; simpl; lia).
  destruct (Nat.ltb_spec 1000 (length (history ++ [info]))) as [Hlong|Hshort].
  - change 1000%Z with (Z.of_nat 1000). rewrite PyFacts.last_items_pos by lia.
    rewrite length_drop, Happ. lia.
  - rewrite Happ. lia.
Qed.

Lemma deliver_history g d now :
  log_data (deliver g d now).1 = log_data g
  /\ (log_data g = false -> status_history (deliver g d now).1 = status_history g)
  /\ (log_data g = true -> length (status_history g) <= 1000 ->
      length (status_history (deliver g d now).1)
      = min 1000 (S (length (status_history g)))).
Proof.
  destruct d; simpl; unfold handle; simpl;
    (split; [reflexivity|]); (split; [by intros ->|]);
    intros -> Hlen; by apply log_status_data_length.
Qed.

(** X30: the status history holds at most 1000 snapshots.  With data
    logging on, every delivery adds one snapshot and the oldest go once
    1000 are held; with data logging off the history does not change. *)
Theorem status_history_is_bounded (ds : list (delivery * Q)) (g : monitor) :
  length (status_history g) <= 1000 ->
  length (status_history (deliver_all g ds))
  = (if log_data g then min 1000 (length (status_history g) + length ds)
     else length (status_history g))
  /\ length (status_history (deliver_all g ds)) <= 1000
  /\ (log_data g = false -> status_history (deliver_all g ds) = status_history g).
Proof.
  revert g. induction ds as [|[d now] rest IH]; intros g Hlen.
  - change (deliver_all g []) with g. cbn [length]. rewrite Nat.add_0_r.
    split; [destruct (log_data g); lia|]. split; [lia|done].
  - change (deliver_all g ((d, now) :: rest))
      with (deliver_all (deliver g d now).1 rest).
    cbn [length].
    destruct (deliver_history g d now) as (Hlog & Hoff & Hon).
    destruct (log_data g) eqn:Hg.
    + specialize (Hon eq_refl Hlen).
      destruct (IH (deliver g d now).1) as (IH1 & IH2 & _); [lia|].
      rewrite Hlog in IH1. rewrite IH1, Hon.
      split; [lia|]. split; [lia|done].
    + specialize (Hoff eq_refl).
      destruct (IH (deliver g d now).1) as (IH1 & IH2 & IH3); [by rewrite Hoff|].
      rewrite Hlog in IH1. rewrite IH1, Hoff.
      split; [done|]. split; [lia|].
      intros _. rewrite IH3 by exact Hlog. exact Hoff.
Qed.

Lemma status_history_is_bounded_witness :
  length (status_history
            (deliver_all init (replicate 1200 (process_status_changed, 0%Q))))
  <= 1000.
Proof.
  apply (status_history_is_bounded
           (replicate 1200 (process_status_changed, 0%Q)) init).
  simpl. lia.
Defined.

End GameStatusFacts.
